(** * flowgo: the document ingestion and retrieval pipeline

    A shallow embedding of [backend/internal/document/document.go]:
    the word chunker [ChunkText], the upstream clients [getEmbedding],
    [addToChroma], [queryChroma], [getOrCreateCollection], the ingestion
    loop [processPDF], the handlers [HandleReset], [HandleSearch] and
    [HandleUpload] and the configuration of [NewHandler]; and of the
    [Middleware] of [backend/internal/auth/handler.go].

    Go values are modelled as follows.
    - [string] is a byte string: Rocq's [string], one [ascii] per byte.
    - [int] is a 64-bit two's complement integer: a [Z] with the
      wrap-around of [+] written out in [GoInt.add].
    - [error] is its message; [nil] is [None].
    - The network, the PDF library, the JSON decoder and the UUID source are
      the fields of an [Env] record: every theorem holds for all of them
      unless it fixes one. *)

From Stdlib Require Import ZArith String Ascii List Lia Bool.
From Stdlib Require Import DecimalString DecimalPos SpecFloat.
From stdpp Require Import base tactics list numbers strings gmap.

Local Open Scope Z_scope.

(** * Part I: the model *)

(** ** Go's [int] *)

Module GoInt.

Definition MinInt : Z := - 2 ^ 63.
Definition MaxInt : Z := 2 ^ 63 - 1.

Definition wrap (z : Z) : Z := (z + 2 ^ 63) mod 2 ^ 64 - 2 ^ 63.

Definition add (a b : Z) : Z := wrap (a + b).

Definition in_range (z : Z) : Prop := MinInt <= z <= MaxInt.

End GoInt.

(** ** [strings.Fields] and [strings.Join]

    [strings.Fields] splits around runs of white space as [unicode.IsSpace]
    defines it, decoding the bytes as UTF-8.  The white space code points
    are U+0009..U+000D, U+0020, U+0085, U+00A0, U+1680, U+2000..U+200A,
    U+2028, U+2029, U+202F, U+205F and U+3000.  None of their encodings
    starts with a continuation byte and each is the only valid encoding of
    its code point, so a rune is white space exactly when its bytes are one
    of the patterns below; [space_width] is the width of the white space
    rune that starts the string, and 0 when none does. *)

Definition asciiSpace (c : ascii) : bool :=
  let b := N_of_ascii c in
  ((9 <=? b) && (b <=? 13) || (b =? 32))%N.

Definition is_space2 (b0 b1 : N) : bool :=
  ((b0 =? 0xC2) && ((b1 =? 0x85) || (b1 =? 0xA0)))%N.

Definition is_space3 (b0 b1 b2 : N) : bool :=
  ((b0 =? 0xE1) && (b1 =? 0x9A) && (b2 =? 0x80)
   || (b0 =? 0xE2) && (b1 =? 0x80)
        && ((0x80 <=? b2) && (b2 <=? 0x8A)
            || (b2 =? 0xA8) || (b2 =? 0xA9) || (b2 =? 0xAF))
   || (b0 =? 0xE2) && (b1 =? 0x81) && (b2 =? 0x9F)
   || (b0 =? 0xE3) && (b1 =? 0x80) && (b2 =? 0x80))%N.

Definition space_width (s : string) : nat :=
  match s with
  | EmptyString => 0%nat
  | String c0 s1 =>
      if asciiSpace c0 then 1%nat
      else
        match s1 with
        | EmptyString => 0%nat
        | String c1 s2 =>
            if is_space2 (N_of_ascii c0) (N_of_ascii c1) then 2%nat
            else
              match s2 with
              | EmptyString => 0%nat
              | String c2 _ =>
                  if is_space3 (N_of_ascii c0) (N_of_ascii c1) (N_of_ascii c2)
                  then 3%nat else 0%nat
              end
        end
  end.

Definition cons_word (w : string) (ws : list string) : list string :=
  match w with
  | EmptyString => ws
  | _ => w :: ws
  end.

(** [scan skip s] reads [s] left to right, the first [skip] bytes being the
    rest of a white space rune already recognised.  It returns the field that
    starts at the head of [s] (empty when [s] starts with white space) and
    the fields after it. *)
Fixpoint scan (skip : nat) (s : string) : string * list string :=
  match s with
  | EmptyString => (EmptyString, [])
  | String c rest =>
      match skip with
      | S k => let '(w, ws) := scan k rest in (EmptyString, cons_word w ws)
      | O =>
          match space_width s with
          | S k => let '(w, ws) := scan k rest in (EmptyString, cons_word w ws)
          | O => let '(w, ws) := scan 0 rest in (String c w, ws)
          end
      end
  end.

Definition Fields (s : string) : list string :=
  let '(w, ws) := scan 0 s in cons_word w ws.

Fixpoint Join (elems : list string) (sep : string) : string :=
  match elems with
  | [] => ""
  | [x] => x
  | x :: rest => x +:+ sep +:+ Join rest sep
  end.

(** ** Slices and the result of running a loop *)

Inductive outcome (A : Type) : Type :=
| Returned (a : A)
| Panicked
| OutOfFuel.
Arguments Returned {A} a.
Arguments Panicked {A}.
Arguments OutOfFuel {A}.

Definition len {A} (l : list A) : Z := Z.of_nat (length l).

(** [l[lo:hi]] for a slice whose capacity is its length, as [strings.Fields]
    returns it; a slice out of bounds panics. *)
Definition slice {A} (l : list A) (lo hi : Z) : option (list A) :=
  if (0 <=? lo) && (lo <=? hi) && (hi <=? len l)
  then Some (take (Z.to_nat (hi - lo)) (drop (Z.to_nat lo) l))
  else None.

(** ** [ChunkText] *)

(** The [for] loop of [ChunkText], entered at its condition, with [i] and
    [chunks] as they are there. *)
Fixpoint ChunkText_loop (fuel : nat) (words : list string) (size stride : Z)
    (i : Z) (chunks : list string) : outcome (list string) :=
  match fuel with
  | O => OutOfFuel
  | S fuel' =>
      if negb (i <? len words) then Returned chunks
      else
        let end0 := GoInt.add i size in
        let end_ := if end0 >? len words then len words else end0 in
        match slice words i end_ with
        | None => Panicked
        | Some window =>
            let chunks := chunks ++ [Join window " "] in
            if end_ =? len words then Returned chunks
            else ChunkText_loop fuel' words size stride (GoInt.add i stride) chunks
        end
  end.

Definition ChunkText_fuel (fuel : nat) (text : string) (size stride : Z)
  : outcome (list string) :=
  let words := Fields text in
  if len words =? 0 then Returned []
  else ChunkText_loop fuel words size stride 0 [].

(** [ChunkText], with fuel for one round for each word and one more test of
    the loop condition: when the loop ends at all, it ends within these. *)
Definition ChunkText (text : string) (size stride : Z) : outcome (list string) :=
  ChunkText_fuel (S (length (Fields text))) text size stride.

(** ** The windows of [ChunkText]

    [ChunkText_trace] is the loop of [ChunkText] again, recording the bounds
    [i] and [end] of each window where the code appends the joined window. *)
Fixpoint ChunkText_trace (fuel : nat) (words : list string) (size stride : Z)
    (i : Z) (spans : list (Z * Z)) : outcome (list (Z * Z)) :=
  match fuel with
  | O => OutOfFuel
  | S fuel' =>
      if negb (i <? len words) then Returned spans
      else
        let end0 := GoInt.add i size in
        let end_ := if end0 >? len words then len words else end0 in
        match slice words i end_ with
        | None => Panicked
        | Some _ =>
            let spans := spans ++ [(i, end_)] in
            if end_ =? len words then Returned spans
            else ChunkText_trace fuel' words size stride (GoInt.add i stride) spans
        end
  end.

Definition ChunkText_spans (text : string) (size stride : Z)
  : outcome (list (Z * Z)) :=
  let words := Fields text in
  if len words =? 0 then Returned []
  else ChunkText_trace (S (length words)) words size stride 0 [].

(** The words [l[lo:hi]] of a span that is in bounds. *)
Definition window {A} (l : list A) (span : Z * Z) : list A :=
  take (Z.to_nat (span.2 - span.1)) (drop (Z.to_nat span.1) l).

Definition chunk_of (words : list string) (span : Z * Z) : string :=
  Join (window words span) " ".

Definition outcome_map {A B} (f : A -> B) (o : outcome A) : outcome B :=
  match o with
  | Returned a => Returned (f a)
  | Panicked => Panicked
  | OutOfFuel => OutOfFuel
  end.

(** The same windows over the unbounded integers. *)
Fixpoint windows (fuel : nat) (n size stride i : Z) : list (Z * Z) :=
  match fuel with
  | O => []
  | S fuel' =>
      if negb (i <? n) then []
      else
        let e := Z.min (i + size) n in
        (i, e) :: (if e =? n then [] else windows fuel' n size stride (i + stride))
  end.

(** Rounding up: [cdiv a b] is the least [k] with [a <= k * b], for [b > 0]. *)
Definition cdiv (a b : Z) : Z := (a + b - 1) / b.

(** ** Words

    A word is a non-empty string in which no white space rune starts, also
    when a space follows it. *)
Fixpoint no_space (w : string) : bool :=
  match w with
  | EmptyString => true
  | String _ w' => Nat.eqb (space_width (w +:+ " ")) 0 && no_space w'
  end.

Definition is_word (w : string) : bool :=
  negb (String.eqb w "") && no_space w.

(** ** [ChunkText] on well-formed arguments *)

(** The length of a Go string is an [int]. *)
Definition go_string (s : string) : Prop :=
  Z.of_nat (String.length s) <= GoInt.MaxInt.

(** A positive [int]. *)
Definition positive_int (z : Z) : Prop := 0 < z <= GoInt.MaxInt.

(** The windows [ChunkText] cuts from [text]. *)
Definition spans_of (text : string) (size stride : Z) : list (Z * Z) :=
  windows (length (Fields text)) (len (Fields text)) size stride 0.

(** ** Counting the chunks *)

(** The count the specification states for [n] words. *)
Definition stated_count (n size stride : Z) : Z :=
  if n =? 0 then 0 else cdiv (Z.max 0 (n - size)) stride + 1.

(** The count of the code: the stated one, unless the stride steps past the
    last word first. *)
Definition chunk_count (n size stride : Z) : Z :=
  if n =? 0 then 0
  else Z.min (cdiv (Z.max 0 (n - size)) stride + 1) (cdiv n stride).

(** * The pipeline *)

(** ** Values *)

Definition error : Type := string.

(** A Go pair [(value, error)]. *)
Inductive result (A : Type) : Type :=
| Ok (a : A)
| Err (e : error).
Arguments Ok {A} a.
Arguments Err {A} e.

Definition float32 : Type := spec_float.

(** [%d] *)
Definition itoa (z : Z) : string := NilZero.string_of_int (Z.to_int z).

(** An [interface{}] that holds JSON data. *)
#[warnings="-register-all"]
Inductive value : Type :=
| VNull
| VBool (b : bool)
| VInt (n : Z)
| VFloat (f : float32)
| VString (s : string)
| VArray (l : list value)
| VObject (m : gmap string value).

Definition StatusOK : Z := 200.
Definition StatusCreated : Z := 201.
Definition StatusBadRequest : Z := 400.
Definition StatusNotFound : Z := 404.
Definition StatusMethodNotAllowed : Z := 405.
Definition StatusInternalServerError : Z := 500.

Definition MethodGet : string := "GET".
Definition MethodPost : string := "POST".
Definition MethodDelete : string := "DELETE".

Record Config : Type := {
  OllamaURL : string;
  ChromaURL : string;
  ChromaAPIBase : string;
  DefaultModel : string;
  Collection : string
}.

Record Handler : Type := { config : Config }.

Record EmbeddingRequest : Type := { Model : string; Prompt : string }.

Record EmbeddingResponse : Type := { Embedding : list float32 }.

Record ChromaAddRequest : Type := {
  Documents : list string;
  Metadatas : list value;
  Ids : list string;
  Embeddings : list (list float32)
}.

Record ChromaQueryRequest : Type := {
  QueryEmbeddings : list (list float32);
  NResults : Z
}.

Record ChromaQueryResponse : Type := {
  qIds : list (list string);
  qDocuments : list (list string);
  qMetadatas : list (list value);
  qDistances : list (list float32)
}.

(** ** The outside world *)

(** What [json.Marshal] is given to make a request body. *)
Inductive Payload : Type :=
| NoBody
| EmbeddingJSON (r : EmbeddingRequest)
| AddJSON (r : ChromaAddRequest)
| QueryJSON (r : ChromaQueryRequest)
| StringMapJSON (m : gmap string string).

Record HttpRequest : Type := {
  rMethod : string;
  rURL : string;
  rContentType : string;
  rBody : Payload
}.

(** What an HTTP call gives: an error, or a response with its body. *)
Inductive HttpResult : Type :=
| TransportError (err : error)
| Response (StatusCode : Z) (Body : string).

(** The libraries and services the package calls.  [World] is the state of
    everything outside the process. *)
Class Env : Type := {
  World : Type;
  (** [http.DefaultClient.Do], under [http.Get] and [http.Post] too *)
  http_Do : HttpRequest -> World -> HttpResult * World;
  (** [http.NewRequest]: the error for a method or URL that does not parse *)
  http_NewRequest_error : string -> string -> option error;
  (** [uuid.New().String()] *)
  uuid_New : World -> string * World;
  (** [pdf.Open], [Reader.GetPlainText], [io.Copy] into a buffer *)
  PdfReader : Type;
  PlainText : Type;
  pdf_Open : string -> World -> result PdfReader;
  GetPlainText : PdfReader -> result PlainText;
  io_Copy : PlainText -> result string;
  (** [json.NewDecoder(body).Decode] and [json.Unmarshal] at the types used *)
  decode_EmbeddingResponse : string -> result EmbeddingResponse;
  decode_ID : string -> result string;
  unmarshal_ID : string -> result string;
  decode_ChromaQueryResponse : string -> result ChromaQueryResponse
}.

Inductive Event : Type :=
| EvHttp (req : HttpRequest) (res : HttpResult)
| EvLog (msg : string).

Record State `{Env} : Type := { world : World; trace : list Event }.

(** A computation that calls the outside world and logs. *)
Definition M `{Env} (A : Type) : Type := State -> A * State.

#[global] Instance M_ret `{Env} : MRet M := fun A a s => (a, s).

#[global] Instance M_bind `{Env} : MBind M :=
  fun A B f m s => let '(a, s') := m s in f a s'.

Definition http_call `{Env} (req : HttpRequest) : M HttpResult := fun s =>
  let '(res, w) := http_Do req (world s) in
  (res, {| world := w; trace := trace s ++ [EvHttp req res] |}).

Definition http_Get `{Env} (url : string) : M HttpResult :=
  http_call {| rMethod := MethodGet; rURL := url; rContentType := "";
               rBody := NoBody |}.

Definition http_Post `{Env} (url contentType : string) (body : Payload)
  : M HttpResult :=
  http_call {| rMethod := MethodPost; rURL := url; rContentType := contentType;
               rBody := body |}.

Definition log_Printf `{Env} (msg : string) : M unit := fun s =>
  (tt, {| world := world s; trace := trace s ++ [EvLog msg] |}).

Definition uuid_New_String `{Env} : M string := fun s =>
  let '(id, w) := uuid_New (world s) in (id, {| world := w; trace := trace s |}).

(** ** The helpers *)

Definition ReadPDF `{Env} (path : string) : M (result string) := fun s =>
  (match pdf_Open path (world s) with
   | Err err => Err err
   | Ok r =>
       match GetPlainText r with
       | Err err => Err err
       | Ok b =>
           match io_Copy b with
           | Err err => Err err
           | Ok buf => Ok buf
           end
       end
   end, s).

Definition getEmbedding `{Env} (h : Handler) (text : string)
  : M (result (list float32)) :=
  let reqBody := EmbeddingJSON {| Model := DefaultModel (config h);
                                  Prompt := text |} in
  resp ← http_Post (OllamaURL (config h) +:+ "/api/embeddings")
           "application/json" reqBody;
  match resp with
  | TransportError err => mret (Err ("http post error: " +:+ err))
  | Response StatusCode body =>
      if negb (StatusCode =? StatusOK) then
        mret (Err ("ollama returned status " +:+ itoa StatusCode +:+ ": "
                   +:+ body))
      else
        match decode_EmbeddingResponse body with
        | Err err => mret (Err ("failed to decode response: " +:+ err))
        | Ok res => mret (Ok (Embedding res))
        end
  end.

(** [getOrCreateCollection] from its second step on: create the collection. *)
Definition createCollection `{Env} (h : Handler) (name : string)
  : M (result string) :=
  let createURL := ChromaURL (config h) +:+ ChromaAPIBase (config h) in
  let reqBody := StringMapJSON {[ "name" := name ]} in
  resp ← http_Post createURL "application/json" reqBody;
  match resp with
  | TransportError err =>
      mret (Err ("failed to POST to " +:+ createURL +:+ ": " +:+ err))
  | Response StatusCode body =>
      if negb (StatusCode =? StatusOK) && negb (StatusCode =? StatusCreated)
      then
        mret (Err ("create collection at " +:+ createURL
                   +:+ " returned status " +:+ itoa StatusCode +:+ ": "
                   +:+ body))
      else
        match unmarshal_ID body with
        | Err err =>
            mret (Err ("failed to decode create collection response: "
                       +:+ err))
        | Ok ID =>
            if String.eqb ID "" then
              mret (Err "received empty collection ID from ChromaDB")
            else mret (Ok ID)
        end
  end.

Definition getOrCreateCollection `{Env} (h : Handler) (name : string)
  : M (result string) :=
  let getURL := ChromaURL (config h) +:+ ChromaAPIBase (config h) +:+ "/"
                +:+ name in
  resp ← http_Get getURL;
  match resp with
  | Response StatusCode body =>
      if StatusCode =? StatusOK then
        match decode_ID body with
        | Err err =>
            mret (Err ("failed to decode get collection response: " +:+ err))
        | Ok ID => mret (Ok ID)
        end
      else createCollection h name
  | TransportError _ => createCollection h name
  end.

Definition addToChroma `{Env} (h : Handler) (text : string)
    (embedding : list float32) (filename : string) (chunkNum : Z)
  : M (option error) :=
  r ← getOrCreateCollection h (Collection (config h));
  match r with
  | Err err => mret (Some ("getOrCreateCollection failed: " +:+ err))
  | Ok colID =>
      id ← uuid_New_String;
      let reqBody := AddJSON {|
        Documents := [text];
        Metadatas := [VObject {[ "source" := VString "pdf";
                                 "filename" := VString filename;
                                 "chunk_num" := VInt chunkNum ]}];
        Ids := [id];
        Embeddings := [embedding] |} in
      let url := ChromaURL (config h) +:+ ChromaAPIBase (config h) +:+ "/"
                 +:+ colID +:+ "/add" in
      resp ← http_Post url "application/json" reqBody;
      match resp with
      | TransportError err =>
          mret (Some ("http post to " +:+ url +:+ " failed: " +:+ err))
      | Response StatusCode body =>
          if StatusCode >=? 300 then
            mret (Some ("chroma add returned status " +:+ itoa StatusCode
                        +:+ ": " +:+ body))
          else mret None
      end
  end.

Definition queryChroma `{Env} (h : Handler) (embedding : list float32)
  : M (result ChromaQueryResponse) :=
  r ← getOrCreateCollection h (Collection (config h));
  match r with
  | Err err => mret (Err err)
  | Ok colID =>
      let reqBody := QueryJSON {| QueryEmbeddings := [embedding];
                                  NResults := 5 |} in
      let url := ChromaURL (config h) +:+ ChromaAPIBase (config h) +:+ "/"
                 +:+ colID +:+ "/query" in
      resp ← http_Post url "application/json" reqBody;
      match resp with
      | TransportError err => mret (Err err)
      | Response StatusCode body =>
          if StatusCode >=? 300 then
            mret (Err ("chroma query returned status " +:+ itoa StatusCode
                       +:+ ": " +:+ body))
          else
            match decode_ChromaQueryResponse body with
            | Err err => mret (Err err)
            | Ok res => mret (Ok res)
            end
      end
  end.

(** ** Ingestion *)

(** The body of the loop of [processPDF] for the chunk at index [i] of [n];
    every path through it ends the round, by [continue] or by reaching the
    end. *)
Definition processPDF_round `{Env} (h : Handler) (filename : string) (n i : Z)
    (chunk : string) : M unit :=
  _ ← log_Printf ("Processing chunk " +:+ itoa (i + 1) +:+ "/" +:+ itoa n
                  +:+ " (length: " +:+ itoa (Z.of_nat (String.length chunk))
                  +:+ " chars)");
  r ← getEmbedding h chunk;
  match r with
  | Err err =>
      log_Printf ("WARNING: failed to get embedding for chunk "
                  +:+ itoa (i + 1) +:+ ": " +:+ err)
  | Ok embedding =>
      e ← addToChroma h chunk embedding filename (i + 1);
      match e with
      | Some err =>
          log_Printf ("WARNING: failed to add chunk " +:+ itoa (i + 1)
                      +:+ " to chroma: " +:+ err)
      | None =>
          log_Printf ("Successfully stored chunk " +:+ itoa (i + 1) +:+ "/"
                      +:+ itoa n)
      end
  end.

(** [for i, chunk := range chunks], from index [i] on. *)
Fixpoint processPDF_loop `{Env} (h : Handler) (filename : string) (n i : Z)
    (chunks : list string) : M unit :=
  match chunks with
  | [] => mret tt
  | chunk :: rest =>
      _ ← processPDF_round h filename n i chunk;
      processPDF_loop h filename n (i + 1) rest
  end.

(** [processPDF] returns an [error], [None] for [nil]; it panics or does not
    return where [ChunkText] does. *)
Definition processPDF `{Env} (h : Handler) (path filename : string)
    (chunkSize chunkStride : Z) : M (outcome (option error)) :=
  c ← ReadPDF path;
  match c with
  | Err err => mret (Returned (Some ("failed to read PDF: " +:+ err)))
  | Ok content =>
      _ ← log_Printf ("Extracted " +:+ itoa (Z.of_nat (String.length content))
                      +:+ " characters from PDF");
      match ChunkText content chunkSize chunkStride with
      | Panicked => mret Panicked
      | OutOfFuel => mret OutOfFuel
      | Returned chunks =>
          _ ← log_Printf ("Split PDF into " +:+ itoa (len chunks)
                          +:+ " chunks (size: " +:+ itoa chunkSize
                          +:+ " words, stride: " +:+ itoa chunkStride
                          +:+ " words)");
          _ ← processPDF_loop h filename (len chunks) 0 chunks;
          _ ← log_Printf ("Completed processing all " +:+ itoa (len chunks)
                          +:+ " chunks");
          mret (Returned None)
      end
  end.

(** ** The handlers *)

(** What a handler reads of the request. *)
Record Request : Type := {
  Method : string;
  (** [r.URL.Query().Get("q")] *)
  query_q : string
}.

(** What [json.NewEncoder(w).Encode] is given. *)
Inductive Encoded : Type :=
| EncodedStringMap (m : gmap string string)
| EncodedQueryResponse (res : ChromaQueryResponse).

(** What a handler writes: [http.Error(w, msg, code)], or a content type and
    an encoded value with the status left at 200. *)
Inductive Written : Type :=
| http_Error (msg : string) (code : Z)
| WroteJSON (contentType : string) (v : Encoded).

Definition HandleReset `{Env} (h : Handler) (r : Request) : M Written :=
  if negb (String.eqb (Method r) MethodPost)
     && negb (String.eqb (Method r) MethodGet)
  then mret (http_Error "Method not allowed" StatusMethodNotAllowed)
  else
    _ ← log_Printf ("Resetting collection: " +:+ Collection (config h));
    let url := ChromaURL (config h) +:+ ChromaAPIBase (config h) +:+ "/"
               +:+ Collection (config h) in
    match http_NewRequest_error MethodDelete url with
    | Some err =>
        mret (http_Error ("failed to create request: " +:+ err)
                StatusInternalServerError)
    | None =>
        resp ← http_call {| rMethod := MethodDelete; rURL := url;
                            rContentType := ""; rBody := NoBody |};
        match resp with
        | TransportError err =>
            mret (http_Error ("failed to delete collection: " +:+ err)
                    StatusInternalServerError)
        | Response StatusCode body =>
            if negb (StatusCode =? StatusOK)
               && negb (StatusCode =? StatusNotFound)
            then
              mret (http_Error ("chroma reset error: " +:+ body)
                      StatusInternalServerError)
            else
              _ ← log_Printf "Collection reset successful";
              mret (WroteJSON "application/json"
                      (EncodedStringMap
                         {[ "status" := "reset successful";
                            "collection" := Collection (config h) ]}))
        end
    end.

Definition HandleSearch `{Env} (h : Handler) (r : Request) : M Written :=
  if negb (String.eqb (Method r) MethodGet)
  then mret (http_Error "Method not allowed" StatusMethodNotAllowed)
  else
    let query := query_q r in
    if String.eqb query ""
    then mret (http_Error "Missing query parameter 'q'" StatusBadRequest)
    else
      _ ← log_Printf ("Searching for: " +:+ query);
      e ← getEmbedding h query;
      match e with
      | Err err =>
          mret (http_Error ("failed to get embedding: " +:+ err)
                  StatusInternalServerError)
      | Ok embedding =>
          q ← queryChroma h embedding;
          match q with
          | Err err =>
              mret (http_Error ("failed to query chroma: " +:+ err)
                      StatusInternalServerError)
          | Ok results =>
              mret (WroteJSON "application/json"
                      (EncodedQueryResponse results))
          end
      end.

(** ** What the proofs observe

    The requests the clients send, and what a trace shows. *)

(** The request [getEmbedding] sends. *)
Definition embedding_request (h : Handler) (text : string) : HttpRequest :=
  {| rMethod := MethodPost;
     rURL := OllamaURL (config h) +:+ "/api/embeddings";
     rContentType := "application/json";
     rBody := EmbeddingJSON {| Model := DefaultModel (config h);
                               Prompt := text |} |}.

Definition is_Err {A} (r : result A) : Prop := exists e, r = Err e.

(** The requests [getOrCreateCollection] sends. *)
Definition get_request (h : Handler) (name : string) : HttpRequest :=
  {| rMethod := MethodGet;
     rURL := ChromaURL (config h) +:+ ChromaAPIBase (config h) +:+ "/"
             +:+ name;
     rContentType := "";
     rBody := NoBody |}.

Definition create_request (h : Handler) (name : string) : HttpRequest :=
  {| rMethod := MethodPost;
     rURL := ChromaURL (config h) +:+ ChromaAPIBase (config h);
     rContentType := "application/json";
     rBody := StringMapJSON {[ "name" := name ]} |}.

(** The request [HandleReset] sends. *)
Definition delete_request (h : Handler) : HttpRequest :=
  {| rMethod := MethodDelete;
     rURL := ChromaURL (config h) +:+ ChromaAPIBase (config h) +:+ "/"
             +:+ Collection (config h);
     rContentType := "";
     rBody := NoBody |}.

(** What [HandleReset] writes on success. *)
Definition reset_successful (h : Handler) : Written :=
  WroteJSON "application/json"
    (EncodedStringMap {[ "status" := "reset successful";
                         "collection" := Collection (config h) ]}).

(** The request [queryChroma] sends to the collection [colID]. *)
Definition query_request (h : Handler) (colID : string)
    (embedding : list float32) : HttpRequest :=
  {| rMethod := MethodPost;
     rURL := ChromaURL (config h) +:+ ChromaAPIBase (config h) +:+ "/"
             +:+ colID +:+ "/query";
     rContentType := "application/json";
     rBody := QueryJSON {| QueryEmbeddings := [embedding]; NResults := 5 |} |}.

(** The prompts of the embedding requests in a trace, in order. *)
Definition event_prompt (e : Event) : option string :=
  match e with
  | EvHttp req _ =>
      match rBody req with
      | EmbeddingJSON r => Some (Prompt r)
      | _ => None
      end
  | EvLog _ => None
  end.

Definition embedding_prompts (tr : list Event) : list string :=
  omap event_prompt tr.

(** The metadata [addToChroma] writes. *)
Definition chunk_metadata (filename : string) (chunkNum : Z) : value :=
  VObject {[ "source" := VString "pdf";
             "filename" := VString filename;
             "chunk_num" := VInt chunkNum ]}.

(** The text and the metadata of the record of a chunk. *)
Definition chunk_record (filename : string) (chunkNum : Z) (chunk : string)
  : list string * list value :=
  ([chunk], [chunk_metadata filename chunkNum]).

(** The records written: the text and the metadata of the add requests that
    the store answered with a status below 300, in order. *)
Definition event_written (e : Event) : option (list string * list value) :=
  match e with
  | EvHttp req (Response code _) =>
      match rBody req with
      | AddJSON r =>
          if code <? 300 then Some (Documents r, Metadatas r) else None
      | _ => None
      end
  | _ => None
  end.

Definition written_records (tr : list Event)
  : list (list string * list value) :=
  omap event_written tr.

(** The records of the chunks from index [i] on, leaving out the chunk whose
    number, counted from [k], is [skipped]. *)
Fixpoint expected_records (skipped : nat -> bool) (filename : string)
    (k : nat) (i : Z) (chunks : list string)
  : list (list string * list value) :=
  match chunks with
  | [] => []
  | chunk :: rest =>
      (if skipped k then [] else [chunk_record filename (i + 1) chunk])
      ++ expected_records skipped filename (S k) (i + 1) rest
  end.

(** The records of all the chunks. *)
Definition all_records (filename : string) (chunks : list string)
  : list (list string * list value) :=
  expected_records (fun _ => false) filename 0 0 chunks.

(** The log lines of a round. *)
Definition round_start_line (n i : Z) (chunk : string) : string :=
  "Processing chunk " +:+ itoa (i + 1) +:+ "/" +:+ itoa n
  +:+ " (length: " +:+ itoa (Z.of_nat (String.length chunk)) +:+ " chars)".

Definition embedding_warning (i : Z) (err : error) : string :=
  "WARNING: failed to get embedding for chunk " +:+ itoa (i + 1) +:+ ": "
  +:+ err.

Definition store_warning (i : Z) (err : error) : string :=
  "WARNING: failed to add chunk " +:+ itoa (i + 1) +:+ " to chroma: " +:+ err.

(** A computation that adds [evs] to the trace, whatever the state. *)
Definition emits `{Env} {A} (m : M A) (P : list Event -> Prop) : Prop :=
  forall s, exists evs, trace (m s).2 = trace s ++ evs /\ P evs.

(** No embedding request among the events. *)
Definition no_prompt (evs : list Event) : Prop := embedding_prompts evs = [].

(** No record written among the events. *)
Definition no_write (evs : list Event) : Prop := written_records evs = [].

(** * A simulated upstream

    A stand-in for the two services, to run the pipeline on: an embedding
    provider whose [k]-th call fails when [fails k], and a vector store that
    holds at most one collection and keeps the records added to it.  A PDF
    file is the text it holds. *)

Record SimWorld : Type := {
  sim_files : gmap string string;
  sim_collection : option string;
  sim_created : nat;
  sim_records : list ChromaAddRequest;
  sim_embed_calls : nat;
  sim_uuids : nat
}.

Definition sim_embed (fails : nat -> bool) (r : EmbeddingRequest)
    (w : SimWorld) : HttpResult * SimWorld :=
  let w' := {| sim_files := sim_files w;
               sim_collection := sim_collection w;
               sim_created := sim_created w;
               sim_records := sim_records w;
               sim_embed_calls := S (sim_embed_calls w);
               sim_uuids := sim_uuids w |} in
  if fails (sim_embed_calls w)
  then (Response StatusInternalServerError "model failed", w')
  else (Response StatusOK "{embedding}", w').

Definition sim_add (r : ChromaAddRequest) (w : SimWorld)
  : HttpResult * SimWorld :=
  match sim_collection w with
  | None => (Response StatusNotFound "no such collection", w)
  | Some _ =>
      (Response StatusCreated "true",
       {| sim_files := sim_files w;
          sim_collection := sim_collection w;
          sim_created := sim_created w;
          sim_records := sim_records w ++ [r];
          sim_embed_calls := sim_embed_calls w;
          sim_uuids := sim_uuids w |})
  end.

Definition sim_create (w : SimWorld) : HttpResult * SimWorld :=
  let id := "col-" +:+ itoa (Z.of_nat (sim_created w)) in
  (Response StatusOK id,
   {| sim_files := sim_files w;
      sim_collection := Some id;
      sim_created := S (sim_created w);
      sim_records := [];
      sim_embed_calls := sim_embed_calls w;
      sim_uuids := sim_uuids w |}).

Definition sim_delete (w : SimWorld) : HttpResult * SimWorld :=
  match sim_collection w with
  | None => (Response StatusNotFound "no such collection", w)
  | Some _ =>
      (Response StatusOK "",
       {| sim_files := sim_files w;
          sim_collection := None;
          sim_created := sim_created w;
          sim_records := [];
          sim_embed_calls := sim_embed_calls w;
          sim_uuids := sim_uuids w |})
  end.

Definition sim_http (fails : nat -> bool) (req : HttpRequest) (w : SimWorld)
  : HttpResult * SimWorld :=
  match rBody req with
  | EmbeddingJSON r => sim_embed fails r w
  | AddJSON r => sim_add r w
  | StringMapJSON _ => sim_create w
  | QueryJSON _ =>
      match sim_collection w with
      | None => (Response StatusNotFound "no such collection", w)
      | Some _ => (Response StatusOK "{results}", w)
      end
  | NoBody =>
      if String.eqb (rMethod req) MethodDelete then sim_delete w
      else
        match sim_collection w with
        | None => (Response StatusNotFound "no such collection", w)
        | Some id => (Response StatusOK id, w)
        end
  end.

Definition sim_decode {A} (a : string -> A) (body : string) : result A :=
  if String.eqb body "" then Err "EOF" else Ok (a body).

Definition SimEnv (fails : nat -> bool) : Env := {|
  World := SimWorld;
  http_Do := sim_http fails;
  http_NewRequest_error := fun _ _ => None;
  uuid_New := fun w =>
    ("uuid-" +:+ itoa (Z.of_nat (sim_uuids w)),
     {| sim_files := sim_files w;
        sim_collection := sim_collection w;
        sim_created := sim_created w;
        sim_records := sim_records w;
        sim_embed_calls := sim_embed_calls w;
        sim_uuids := S (sim_uuids w) |});
  PdfReader := string;
  PlainText := string;
  pdf_Open := fun path w =>
    match sim_files w !! path with
    | Some text => Ok text
    | None => Err "no such file"
    end;
  GetPlainText := Ok;
  io_Copy := Ok;
  decode_EmbeddingResponse :=
    sim_decode (fun _ => {| Embedding := [S754_zero false] |});
  decode_ID := sim_decode id;
  unmarshal_ID := sim_decode id;
  decode_ChromaQueryResponse :=
    sim_decode (fun _ => {| qIds := [[]]; qDocuments := [[]];
                            qMetadatas := [[]]; qDistances := [[]] |})
|}.

(** A fresh simulated world that holds one file. *)
Definition sim_start (path text : string) : SimWorld :=
  {| sim_files := {[ path := text ]};
     sim_collection := None;
     sim_created := 0;
     sim_records := [];
     sim_embed_calls := 0;
     sim_uuids := 0 |}.

(** A state of the simulated world with an empty trace. *)
Definition sim_state (fails : nat -> bool) (w : SimWorld)
  : @State (SimEnv fails) :=
  @Build_State (SimEnv fails) w [].

(** The text and the metadata of the records in the simulated store. *)
Definition sim_stored (w : SimWorld) : list (list string * list value) :=
  map (fun r => (Documents r, Metadatas r)) (sim_records w).

Definition test_handler : Handler :=
  {| config := {| OllamaURL := "http://localhost:11434";
                  ChromaURL := "http://localhost:8000";
                  ChromaAPIBase :=
                    "/api/v2/tenants/default_tenant/databases/default_database/collections";
                  DefaultModel := "embeddinggemma:300m";
                  Collection := "documents" |} |}.

(** An upstream whose embedding provider answers and whose vector store is
    unreachable. *)
Definition StoreDownEnv : Env := {|
  World := SimWorld;
  http_Do := fun req w =>
    match rBody req with
    | EmbeddingJSON r => sim_embed (fun _ => false) r w
    | _ => (TransportError "connection refused", w)
    end;
  http_NewRequest_error := fun _ _ => None;
  uuid_New := @uuid_New (SimEnv (fun _ => false));
  PdfReader := string;
  PlainText := string;
  pdf_Open := @pdf_Open (SimEnv (fun _ => false));
  GetPlainText := Ok;
  io_Copy := Ok;
  decode_EmbeddingResponse := @decode_EmbeddingResponse (SimEnv (fun _ => false));
  decode_ID := sim_decode id;
  unmarshal_ID := sim_decode id;
  decode_ChromaQueryResponse :=
    @decode_ChromaQueryResponse (SimEnv (fun _ => false))
|}.

(** The simulated store is consistent: its collection has an identifier,
    and without a collection there are no records. *)
Definition sim_ok (w : SimWorld) : Prop :=
  match sim_collection w with
  | Some id => id <> ""
  | None => sim_records w = []
  end.

(** * More of the package

    The rest of [document.go]: the configuration read from the environment
    and [HandleUpload]; the middleware of the [auth] package, which wraps the
    three handlers; and further views of a trace. *)

(** ** Configuration *)

(** [os.Getenv] on an environment that holds the set variables: a variable
    that is not set reads as the empty string. *)
Definition os_Getenv (env : gmap string string) (key : string) : string :=
  match env !! key with
  | Some value => value
  | None => ""
  end.

Definition getEnv (env : gmap string string) (key defaultValue : string)
  : string :=
  let value := os_Getenv env key in
  if negb (String.eqb value "") then value else defaultValue.

Definition NewHandler (env : gmap string string) : Handler :=
  {| config := {|
       OllamaURL := getEnv env "OLLAMA_URL" "http://localhost:11434";
       ChromaURL := getEnv env "CHROMA_URL" "http://localhost:8000";
       ChromaAPIBase :=
         "/api/v2/tenants/default_tenant/databases/default_database/collections";
       DefaultModel := getEnv env "EMBEDDING_MODEL" "embeddinggemma:300m";
       Collection := getEnv env "COLLECTION_NAME" "documents" |} |}.

(** ** [strconv.Atoi]

    An optional sign and then one or more decimal digits, with a value that
    fits an [int]; [None] stands for an error that is not [nil]. *)
Definition Atoi_digits (s : string) : option Z :=
  match s with
  | EmptyString => None
  | _ =>
      match NilEmpty.uint_of_string s with
      | Some d => Some (Z.of_uint d)
      | None => None
      end
  end.

Definition Atoi (s : string) : option Z :=
  match s with
  | EmptyString => None
  | String c rest =>
      let signed :=
        if Ascii.eqb c "-" then option_map Z.opp (Atoi_digits rest)
        else if Ascii.eqb c "+" then Atoi_digits rest
        else Atoi_digits s in
      match signed with
      | Some n =>
          if (GoInt.MinInt <=? n) && (n <=? GoInt.MaxInt) then Some n else None
      | None => None
      end
  end.

(** ** [HandleUpload] *)

(** The file of a multipart form: its header and its bytes. *)
Record FormFile : Type := {
  Filename : string;
  Size : Z;
  fileBytes : string
}.

(** What [HandleUpload] reads of the request: the method, the error of
    [r.ParseMultipartForm], what [r.FormFile("file")] gives, and the form
    values [chunkSize] and [chunkStride], empty when absent. *)
Record UploadRequest : Type := {
  uMethod : string;
  uParseMultipartForm : option error;
  uFormFile : result FormFile;
  uChunkSize : string;
  uChunkStride : string
}.

(** What [HandleUpload] writes: [http.Error(w, msg, code)], or a content
    type and an encoded [map[string]interface{}]. *)
Inductive UploadWritten : Type :=
| upload_Error (msg : string) (code : Z)
| upload_JSON (contentType : string) (v : gmap string value).

(** The files [HandleUpload] touches, in the same [World]. *)
Class FileEnv `{Env} : Type := {
  (** [os.CreateTemp]: the name of the new file *)
  os_CreateTemp : string -> string -> World -> result string * World;
  (** [io.Copy] of the form file into the temporary file *)
  io_Copy_file : string -> FormFile -> World -> option error * World;
  (** [tmpFile.Close()] and [os.Remove(tmpFile.Name())] *)
  tmpFile_Close : string -> World -> World;
  os_Remove : string -> World -> World;
  (** [file.Close()] on the form file *)
  formFile_Close : FormFile -> World -> World
}.

(** Run a step on the world alone. *)
Definition on_world `{Env} (f : World -> World) : M unit := fun s =>
  (tt, {| world := f (world s); trace := trace s |}).

Definition call_world `{Env} {A} (f : World -> A * World) : M A := fun s =>
  let '(a, w) := f (world s) in (a, {| world := w; trace := trace s |}).

(** The deferred calls run when the function returns or panics, not when
    it never does. *)
Definition deferred `{Env} {A} (body : M (outcome A)) (calls : M unit)
  : M (outcome A) :=
  out ← body;
  match out with
  | OutOfFuel => mret OutOfFuel
  | _ => _ ← calls; mret out
  end.

(** The chunk size or stride of an upload: the form value when it is a
    positive integer, or else the default. *)
Definition chunk_param (defaultValue : Z) (formValue : string) : Z :=
  if negb (String.eqb formValue "") then
    match Atoi formValue with
    | Some parsed => if parsed >? 0 then parsed else defaultValue
    | None => defaultValue
    end
  else defaultValue.

(** What [HandleUpload] encodes on success. *)
Definition upload_completed (filename : string) (chunkSize chunkStride : Z)
  : UploadWritten :=
  upload_JSON "application/json"
    {[ "status" := VString "completed";
       "filename" := VString filename;
       "chunkSize" := VInt chunkSize;
       "chunkStride" := VInt chunkStride ]}.

(** [HandleUpload] once the temporary file [name] exists: copy, process,
    answer. *)
Definition HandleUpload_process `{FileEnv} (h : Handler) (file : FormFile)
    (chunkSize chunkStride : Z) (name : string) : M (outcome UploadWritten) :=
  err ← call_world (io_Copy_file name file);
  match err with
  | Some err =>
      mret (Returned (upload_Error ("failed to save file: " +:+ err)
                        StatusInternalServerError))
  | None =>
      p ← processPDF h name (Filename file) chunkSize chunkStride;
      match p with
      | Panicked => mret Panicked
      | OutOfFuel => mret OutOfFuel
      | Returned (Some err) =>
          mret (Returned (upload_Error ("failed to process PDF: " +:+ err)
                            StatusInternalServerError))
      | Returned None =>
          _ ← log_Printf ("Successfully processed: " +:+ Filename file);
          mret (Returned (upload_completed (Filename file)
                            chunkSize chunkStride))
      end
  end.

(** [HandleUpload] once the form file is there. *)
Definition HandleUpload_file `{FileEnv} (h : Handler) (r : UploadRequest)
    (file : FormFile) : M (outcome UploadWritten) :=
  _ ← log_Printf ("Received file: " +:+ Filename file +:+ " (size: "
                  +:+ itoa (Size file) +:+ " bytes)");
  let chunkSize := chunk_param 100 (uChunkSize r) in
  let chunkStride := chunk_param 80 (uChunkStride r) in
  _ ← log_Printf ("Processing with chunk size: " +:+ itoa chunkSize
                  +:+ ", stride: " +:+ itoa chunkStride);
  tmp ← call_world (os_CreateTemp "" "upload-*.pdf");
  match tmp with
  | Err err =>
      mret (Returned (upload_Error ("failed to create temp file: " +:+ err)
                        StatusInternalServerError))
  | Ok name =>
      deferred (HandleUpload_process h file chunkSize chunkStride name)
        (_ ← on_world (tmpFile_Close name); on_world (os_Remove name))
  end.

Definition HandleUpload `{FileEnv} (h : Handler) (r : UploadRequest)
  : M (outcome UploadWritten) :=
  if negb (String.eqb (uMethod r) MethodPost)
  then mret (Returned (upload_Error "Method not allowed"
                         StatusMethodNotAllowed))
  else
    match uParseMultipartForm r with
    | Some err =>
        mret (Returned (upload_Error ("failed to parse form: " +:+ err)
                          StatusBadRequest))
    | None =>
        match uFormFile r with
        | Err err =>
            mret (Returned (upload_Error ("failed to get file: " +:+ err)
                              StatusBadRequest))
        | Ok file =>
            deferred (HandleUpload_file h r file)
              (on_world (formFile_Close file))
        end
    end.

(** The first lines of an upload. *)
Definition received_line (file : FormFile) : string :=
  "Received file: " +:+ Filename file +:+ " (size: " +:+ itoa (Size file)
  +:+ " bytes)".

Definition processing_line (chunkSize chunkStride : Z) : string :=
  "Processing with chunk size: " +:+ itoa chunkSize +:+ ", stride: "
  +:+ itoa chunkStride.

(** ** The middleware of the [auth] package *)

Definition StatusUnauthorized : Z := 401.

Module Auth.

Record Config : Type := {
  AdminUser : string;
  AdminPass : string;
  JWTSecret : string
}.

Record Handler : Type := { config : Config }.

(** [jwt.ParseWithClaims] with the key function that gives the secret: an
    error, or the token and whether it is [Valid]. *)
Class JwtEnv `{Env} : Type := {
  jwt_ParseWithClaims : string -> string -> World -> result bool
}.

(** [strings.CutPrefix]: the rest of [s] after [prefix], when [s] starts
    with it. *)
Fixpoint CutPrefix (s prefix : string) : option string :=
  match prefix with
  | EmptyString => Some s
  | String p prefix' =>
      match s with
      | EmptyString => None
      | String c s' => if Ascii.eqb c p then CutPrefix s' prefix' else None
      end
  end.

Definition TrimPrefix (s prefix : string) : string :=
  match CutPrefix s prefix with
  | Some rest => rest
  | None => s
  end.

(** [Middleware(next)] on a request with the header [Authorization:
    authHeader]: [inl] is what the middleware writes itself, [inr] what
    [next] gives. *)
Definition Middleware `{JwtEnv} {A} (h : Handler) (next : M A)
    (authHeader : string) : M (Written + A) :=
  if String.eqb authHeader "" then
    mret (inl (http_Error "Authorization header required" StatusUnauthorized))
  else
    let tokenString := TrimPrefix authHeader "Bearer " in
    if String.eqb tokenString authHeader then
      mret (inl (http_Error "Bearer token required" StatusUnauthorized))
    else
      parsed ← call_world (fun w =>
        (jwt_ParseWithClaims tokenString (JWTSecret (config h)) w, w));
      match parsed with
      | Ok true => a ← next; mret (inr a)
      | _ => mret (inl (http_Error "Invalid token" StatusUnauthorized))
      end.

End Auth.

(** ** More views of a trace *)

(** The request [addToChroma] sends to the collection [colID] with the
    record identifier [id]. *)
Definition add_request (h : Handler) (colID id text : string)
    (embedding : list float32) (filename : string) (chunkNum : Z)
  : HttpRequest :=
  {| rMethod := MethodPost;
     rURL := ChromaURL (config h) +:+ ChromaAPIBase (config h) +:+ "/"
             +:+ colID +:+ "/add";
     rContentType := "application/json";
     rBody := AddJSON {| Documents := [text];
                         Metadatas := [chunk_metadata filename chunkNum];
                         Ids := [id];
                         Embeddings := [embedding] |} |}.

(** The HTTP requests of a trace, in order. *)
Definition event_request (e : Event) : option HttpRequest :=
  match e with
  | EvHttp req _ => Some req
  | EvLog _ => None
  end.

Definition http_requests (tr : list Event) : list HttpRequest :=
  omap event_request tr.

(** Between [lo] and [hi] HTTP requests among the events. *)
Definition calls (lo hi : nat) (evs : list Event) : Prop :=
  (lo <= length (http_requests evs) <= hi)%nat.

(** ** A simulated file system

    The temporary files are entries of [sim_files]: copying stores the bytes
    of the form file as the text of the PDF, removing deletes the entry. *)
Definition sim_with_files (w : SimWorld) (files : gmap string string)
  : SimWorld :=
  {| sim_files := files;
     sim_collection := sim_collection w;
     sim_created := sim_created w;
     sim_records := sim_records w;
     sim_embed_calls := sim_embed_calls w;
     sim_uuids := sim_uuids w |}.

#[global] Instance SimFileEnv (fails : nat -> bool) : @FileEnv (SimEnv fails) :=
  {| os_CreateTemp := fun _ _ (w : @World (SimEnv fails)) =>
       (Ok "/tmp/upload-1.pdf",
        sim_with_files w (<["/tmp/upload-1.pdf" := ""]> (sim_files w)));
     io_Copy_file := fun name file (w : @World (SimEnv fails)) =>
       (None, sim_with_files w (<[name := fileBytes file]> (sim_files w)));
     tmpFile_Close := fun _ w => w;
     os_Remove := fun name (w : @World (SimEnv fails)) =>
       sim_with_files w (delete name (sim_files w));
     formFile_Close := fun _ w => w |}.

(** A token is valid when it is the secret itself. *)
#[global] Instance SimJwtEnv (fails : nat -> bool) : @Auth.JwtEnv (SimEnv fails) :=
  {| Auth.jwt_ParseWithClaims := fun token secret _ =>
       if String.eqb token "" then Err "token is malformed"
       else Ok (String.eqb token secret) |}.

(** * Part II: the proofs *)

Example ChunkText_12_5_5 :
  ChunkText "a b c d e f g h i j k l" 5 5
  = Returned ["a b c d e"; "f g h i j"; "k l"].
Proof. vm_compute. reflexivity. Qed.

Example ChunkText_10_2_5 :
  ChunkText "a b c d e f g h i j" 2 5 = Returned ["a b"; "f g"].
Proof. vm_compute. reflexivity. Qed.

Example ChunkText_10_100_500 :
  ChunkText "a b c d e f g h i j" 100 500 = Returned ["a b c d e f g h i j"].
Proof. vm_compute. reflexivity. Qed.

Example ChunkText_empty : ChunkText "" 100 80 = Returned [].
Proof. vm_compute. reflexivity. Qed.

Example ChunkText_spaces :
  ChunkText "  a	b
 c  " 2 1 = Returned ["a b"; "b c"].
Proof. vm_compute. reflexivity. Qed.

(** ** Facts about [int] *)

Lemma wrap_in_range z : GoInt.in_range z -> GoInt.wrap z = z.
Proof.
  unfold GoInt.in_range, GoInt.wrap, GoInt.MinInt, GoInt.MaxInt. intros Hz.
  rewrite Z.mod_small; lia.
Qed.

Lemma add_in_range a b :
  GoInt.in_range (a + b) -> GoInt.add a b = a + b.
Proof. apply wrap_in_range. Qed.

(** ** The loop and its trace agree *)

Lemma ChunkText_loop_trace fuel words size stride : forall i chunks spans,
  ChunkText_loop fuel words size stride i (chunks ++ map (chunk_of words) spans)
  = outcome_map (fun sp => chunks ++ map (chunk_of words) sp)
      (ChunkText_trace fuel words size stride i spans).
Proof.
  induction fuel as [|fuel IH]; intros i chunks spans; simpl; [done|].
  destruct (i <? len words); simpl; [|done].
  set (end_ := if GoInt.add i size >? len words then _ else _).
  unfold slice.
  destruct ((0 <=? i) && (i <=? end_) && (end_ <=? len words)); [|done].
  assert (Hext : (chunks ++ map (chunk_of words) spans)
                   ++ [Join (take (Z.to_nat (end_ - i)) (drop (Z.to_nat i) words)) " "]
                 = chunks ++ map (chunk_of words) (spans ++ [(i, end_)])).
  { rewrite map_app, app_assoc. reflexivity. }
  rewrite Hext.
  destruct (end_ =? len words); [done|]. apply IH.
Qed.

Lemma ChunkText_spans_chunks text size stride :
  ChunkText text size stride
  = outcome_map (map (chunk_of (Fields text))) (ChunkText_spans text size stride).
Proof.
  unfold ChunkText, ChunkText_fuel, ChunkText_spans.
  destruct (len (Fields text) =? 0); [done|].
  apply (ChunkText_loop_trace _ _ _ _ 0 [] []).
Qed.

(** ** The trace computes [windows]

    [i + size] and [i + stride] do not overflow: after the first round
    [size < len words], [stride <= i] and [i < len words], and a slice of
    strings has at most [2^62] elements. *)
Section Trace.

Variable words : list string.
Variables size stride : Z.
Hypothesis Hsize : 0 < size <= GoInt.MaxInt.
Hypothesis Hstride : 0 < stride <= GoInt.MaxInt.
Hypothesis Hlen : len words <= 2 ^ 62.

Lemma ChunkText_trace_windows fuel : forall i spans,
  0 <= i ->
  i = 0 \/ (size < len words /\ stride <= i) ->
  1 + Z.max 0 (len words - i - size) <= Z.of_nat fuel ->
  ChunkText_trace fuel words size stride i spans
  = Returned (spans ++ windows fuel (len words) size stride i).
Proof using Hsize Hstride Hlen.
  unfold GoInt.MaxInt in *.
  induction fuel as [|fuel IH]; intros i spans Hi Hinv Hfuel; [lia|].
  cbn [ChunkText_trace windows].
  destruct (Z.ltb_spec i (len words)) as [Hlt|Hge]; cbn [negb];
    [|by rewrite app_nil_r].
  assert (Hadd : GoInt.add i size = i + size).
  { apply add_in_range. unfold GoInt.in_range, GoInt.MinInt, GoInt.MaxInt. lia. }
  rewrite Hadd.
  assert (Hend : (if i + size >? len words then len words else i + size)
                 = Z.min (i + size) (len words)).
  { destruct (Z.gtb_spec (i + size) (len words)); lia. }
  rewrite Hend. set (e := Z.min (i + size) (len words)).
  unfold slice.
  replace ((0 <=? i) && (i <=? e) && (e <=? len words)) with true
    by (symmetry; rewrite !andb_true_iff, !Z.leb_le; lia).
  destruct (Z.eqb_spec e (len words)) as [He|He]; [done|].
  assert (Hstep : GoInt.add i stride = i + stride).
  { apply add_in_range. unfold GoInt.in_range, GoInt.MinInt, GoInt.MaxInt. lia. }
  rewrite Hstep, IH by lia.
  by rewrite <- app_assoc.
Qed.

Lemma ChunkText_trace_start fuel :
  0 < len words -> (length words <= fuel)%nat ->
  ChunkText_trace fuel words size stride 0 []
  = Returned (windows fuel (len words) size stride 0).
Proof using Hsize Hstride Hlen.
  intros Hpos Hfuel. rewrite ChunkText_trace_windows; [done|lia|by left|].
  unfold len in *. lia.
Qed.

End Trace.

(** ** Rounding up *)

Lemma cdiv_add a b : 0 < b -> cdiv (a + b) b = cdiv a b + 1.
Proof.
  intros Hb. unfold cdiv.
  replace (a + b + b - 1) with (a + b - 1 + 1 * b) by lia.
  rewrite Z.div_add by lia. reflexivity.
Qed.

Lemma cdiv_small a b : 0 < a <= b -> cdiv a b = 1.
Proof.
  intros Ha. unfold cdiv.
  replace (a + b - 1) with (a - 1 + 1 * b) by lia.
  rewrite Z.div_add, Z.div_small by lia. reflexivity.
Qed.

Lemma cdiv_zero b : 0 < b -> cdiv 0 b = 0.
Proof. intros Hb. unfold cdiv. apply Z.div_small. lia. Qed.

Lemma cdiv_pos a b : 0 < a -> 0 < b -> 1 <= cdiv a b.
Proof.
  intros Ha Hb. unfold cdiv.
  replace (a + b - 1) with (a - 1 + 1 * b) by lia.
  rewrite Z.div_add by lia.
  pose proof (Z.div_pos (a - 1) b). lia.
Qed.

Lemma cdiv_bounds a b : 0 < b -> (cdiv a b - 1) * b < a <= cdiv a b * b.
Proof.
  intros Hb. unfold cdiv.
  pose proof (Z.div_mod (a + b - 1) b).
  pose proof (Z.mod_pos_bound (a + b - 1) b). nia.
Qed.

(** ** Facts about [windows] *)
Section Windows.

Variables n size stride : Z.
Hypothesis Hsize : 0 < size.
Hypothesis Hstride : 0 < stride.

Lemma windows_length fuel : forall i,
  0 <= i < n ->
  1 + Z.max 0 (n - i - size) <= Z.of_nat fuel ->
  len (windows fuel n size stride i)
  = Z.min (cdiv (Z.max 0 (n - i - size)) stride + 1) (cdiv (n - i) stride).
Proof using Hsize Hstride.
  unfold len.
  induction fuel as [|fuel IH]; intros i Hi Hfuel; [lia|].
  cbn [windows].
  destruct (Z.ltb_spec i n) as [_|?]; [|lia]. cbn [negb].
  pose proof (cdiv_pos (n - i) stride).
  destruct (Z.eqb_spec (Z.min (i + size) n) n) as [He|He].
  - rewrite Z.max_l by lia. rewrite cdiv_zero by lia. simpl. lia.
  - rewrite Z.max_r by lia. cbn [length].
    destruct (Z.lt_ge_cases (i + stride) n) as [Hnext|Hnext].
    + rewrite Nat2Z.inj_succ, IH by lia.
      assert (E1 : cdiv (n - i) stride = cdiv (n - (i + stride)) stride + 1).
      { rewrite <- cdiv_add by lia. f_equal. lia. }
      rewrite E1.
      destruct (Z.le_gt_cases (n - (i + stride) - size) 0) as [Hz|Hz].
      * rewrite Z.max_l by lia. rewrite cdiv_zero by lia.
        rewrite (cdiv_small (n - i - size)) by lia.
        lia.
      * rewrite Z.max_r by lia.
        assert (E2 : cdiv (n - i - size) stride
                     = cdiv (n - (i + stride) - size) stride + 1).
        { rewrite <- cdiv_add by lia. f_equal. lia. }
        rewrite E2. lia.
    + replace (windows fuel n size stride (i + stride)) with (@nil (Z * Z)).
      2:{ destruct fuel; [done|]. cbn [windows].
          destruct (Z.ltb_spec (i + stride) n); [lia|done]. }
      rewrite (cdiv_small (n - i)) by lia.
      pose proof (cdiv_pos (n - i - size) stride). simpl. lia.
Qed.

(** The [k]-th window starts at [i + k * stride] and is [size] words long,
    clipped to the end. *)
Lemma windows_lookup fuel : forall i k a b,
  windows fuel n size stride i !! k = Some (a, b) ->
  a = i + Z.of_nat k * stride /\ b = Z.min (a + size) n /\ a < n.
Proof using Hstride.
  induction fuel as [|fuel IH]; intros i k a b; [done|].
  cbn [windows].
  destruct (Z.ltb_spec i n) as [Hlt|?]; [|done]. cbn [negb].
  destruct k as [|k]; cbn [lookup list_lookup].
  - intros [= <- <-]. lia.
  - destruct (Z.eqb_spec (Z.min (i + size) n) n); [done|].
    intros Hk. apply IH in Hk. lia.
Qed.

(** Only the last window reaches the end of the words. *)
Lemma windows_inner fuel : forall i k a b,
  windows fuel n size stride i !! k = Some (a, b) ->
  (S k < length (windows fuel n size stride i))%nat ->
  b = a + size /\ b < n.
Proof using Hstride.
  induction fuel as [|fuel IH]; intros i k a b; [done|].
  cbn [windows].
  destruct (Z.ltb_spec i n) as [Hlt|?]; [|done]. cbn [negb].
  destruct (Z.eqb_spec (Z.min (i + size) n) n) as [He|He].
  - destruct k; cbn [length]; lia.
  - destruct k as [|k]; cbn [lookup list_lookup length].
    + intros [= <- <-] _. lia.
    + intros Hk Hlen. apply (IH _ _ _ _ Hk). lia.
Qed.

(** With [stride <= size] the windows leave no gap. *)
Lemma windows_cover fuel : forall i j,
  stride <= size ->
  0 <= i <= j -> j < n ->
  1 + Z.max 0 (n - i - size) <= Z.of_nat fuel ->
  exists k a b,
    windows fuel n size stride i !! k = Some (a, b) /\ a <= j < b.
Proof using Hsize Hstride.
  induction fuel as [|fuel IH]; intros i j Hle Hij Hj Hfuel; [lia|].
  cbn [windows].
  destruct (Z.ltb_spec i n) as [Hlt|?]; [|lia]. cbn [negb].
  destruct (Z.lt_ge_cases j (Z.min (i + size) n)) as [Hin|Hout].
  - exists 0%nat, i, (Z.min (i + size) n). split; [done|lia].
  - destruct (Z.eqb_spec (Z.min (i + size) n) n) as [He|He]; [lia|].
    destruct (IH (i + stride) j) as (k & a & b & Hk & Hab); [lia..|].
    exists (S k), a, b. split; [done|lia].
Qed.

(** A stride that steps over all the words leaves one window. *)
Lemma windows_single fuel :
  0 < n -> n <= stride ->
  windows (S fuel) n size stride 0 = [(0, Z.min size n)].
Proof using Hstride.
  intros Hn Hbig. cbn [windows].
  destruct (Z.ltb_spec 0 n); [|lia]. cbn [negb]. f_equal.
  destruct (_ =? _); [done|].
  destruct fuel; [done|]. cbn [windows].
  destruct (Z.ltb_spec (0 + stride) n); [lia|done].
Qed.

End Windows.

Lemma is_space2_sep b0 : is_space2 b0 32 = false.
Proof. unfold is_space2. destruct (b0 =? _)%N; reflexivity. Qed.

Lemma is_space3_sep1 b0 b2 : is_space3 b0 32 b2 = false.
Proof.
  unfold is_space3.
  repeat match goal with
         | |- context [(b0 =? ?y)%N] => destruct (b0 =? y)%N
         end; reflexivity.
Qed.

Lemma is_space3_sep2 b0 b1 : is_space3 b0 b1 32 = false.
Proof.
  unfold is_space3.
  repeat match goal with
         | |- context [(?x =? ?y)%N] => is_var x; destruct (x =? y)%N
         end; reflexivity.
Qed.

Lemma N_of_ascii_space : N_of_ascii " " = 32%N.
Proof. reflexivity. Qed.

Lemma append_nil (t : string) : "" +:+ t = t.
Proof. reflexivity. Qed.

Lemma append_cons c (s t : string) : String c s +:+ t = String c (s +:+ t).
Proof. reflexivity. Qed.

(** What follows a word does not matter to [space_width] inside the word,
    as long as a separator or nothing follows. *)
Lemma space_width_sep q r :
  q <> "" -> space_width (q +:+ " ") = 0%nat ->
  space_width (q +:+ String " " r) = 0%nat /\ space_width q = 0%nat.
Proof.
  destruct q as [|c0 [|c1 [|c2 q]]]; [done|..]; intros _;
    rewrite ?append_cons, ?append_nil; cbn [space_width];
    rewrite ?N_of_ascii_space, ?is_space2_sep, ?is_space3_sep1, ?is_space3_sep2.
  - destruct (asciiSpace c0); [done|].
    destruct r; rewrite ?is_space3_sep1; done.
  - destruct (asciiSpace c0); [done|]. by destruct (is_space2 _ _).
  - destruct (asciiSpace c0); [done|]. destruct (is_space2 _ _); [done|].
    by destruct (is_space3 _ _ _).
Qed.

Lemma space_width_inside q rest :
  q <> "" -> space_width (q +:+ rest) = 0%nat ->
  space_width (q +:+ " ") = 0%nat.
Proof.
  destruct q as [|c0 [|c1 [|c2 q]]]; [done|..]; intros _;
    rewrite ?append_cons, ?append_nil; cbn [space_width];
    rewrite ?N_of_ascii_space, ?is_space2_sep, ?is_space3_sep1, ?is_space3_sep2.
  - destruct (asciiSpace c0); [|done]. by destruct rest.
  - destruct (asciiSpace c0); [done|]. destruct (is_space2 _ _); [|done].
    by destruct rest.
  - done.
Qed.

Lemma append_empty_r (s : string) : s +:+ "" = s.
Proof. induction s as [|c s IH]; [done|]. by rewrite append_cons, IH. Qed.

Lemma append_assoc (a b c : string) : (a +:+ b) +:+ c = a +:+ (b +:+ c).
Proof. induction a as [|x a IH]; [done|]. by rewrite !append_cons, IH. Qed.

(** [scan] reads a word whole when a separator or nothing follows it. *)
Lemma scan_word w tail :
  no_space w = true ->
  tail = "" \/ (exists r, tail = String " " r) ->
  scan 0 (w +:+ tail) = (w +:+ (scan 0 tail).1, (scan 0 tail).2).
Proof.
  intros Hw Htail. induction w as [|c w IH].
  - rewrite !append_nil. by destruct (scan 0 tail).
  - cbn [no_space] in Hw. apply andb_true_iff in Hw as [Hc Hw].
    apply Nat.eqb_eq in Hc.
    assert (Hsw : space_width (String c w +:+ tail) = 0%nat).
    { destruct Htail as [->|[r ->]].
      - rewrite append_empty_r.
        by destruct (space_width_sep (String c w) "") as [_ H0].
      - by destruct (space_width_sep (String c w) r) as [H0 _]. }
    rewrite append_cons in *. cbn [scan]. rewrite Hsw, (IH Hw).
    reflexivity.
Qed.

Lemma scan_sep rest : scan 0 (String " " rest) = ("", Fields rest).
Proof.
  unfold Fields. change (scan 0 (String " " rest))
    with (let '(w, ws) := scan 0 rest in ("", cons_word w ws)).
  by destruct (scan 0 rest).
Qed.

Lemma Fields_word_sep w rest :
  is_word w = true -> Fields (w +:+ " " +:+ rest) = w :: Fields rest.
Proof.
  intros Hw. apply andb_true_iff in Hw as [Hne Hw].
  unfold Fields at 1. change (" " +:+ rest) with (String " " rest).
  rewrite scan_word by eauto. rewrite scan_sep. cbn [fst snd].
  rewrite append_empty_r. by destruct w.
Qed.

Lemma Fields_word w : is_word w = true -> Fields w = [w].
Proof.
  intros Hw. apply andb_true_iff in Hw as [Hne Hw].
  unfold Fields. rewrite <- (append_empty_r w) at 1.
  rewrite scan_word by eauto. cbn [scan fst snd].
  rewrite append_empty_r. by destruct w.
Qed.

(** Splitting what [Join] put together gives the words back. *)
Lemma Fields_Join ws :
  Forall (fun w => is_word w = true) ws -> Fields (Join ws " ") = ws.
Proof.
  induction 1 as [|w ws Hw Hws IH]; [done|].
  destruct ws as [|w' ws].
  - by apply Fields_word.
  - change (Join (w :: w' :: ws) " ") with (w +:+ " " +:+ Join (w' :: ws) " ").
    rewrite Fields_word_sep by done. by rewrite IH.
Qed.

(** ** What [Fields] returns *)

Lemma cons_word_words w ws :
  no_space w = true ->
  Forall (fun w => is_word w = true) ws ->
  Forall (fun w => is_word w = true) (cons_word w ws).
Proof.
  intros Hw Hws. destruct w as [|c w]; [done|].
  constructor; [|done]. unfold is_word. by rewrite Hw.
Qed.

Lemma cons_word_length w ws :
  (2 * length (cons_word w ws) <= String.length w + 1 + 2 * length ws)%nat.
Proof. destruct w; cbn [cons_word length String.length]; lia. Qed.

Lemma scan_spec s : forall skip w ws,
  scan skip s = (w, ws) ->
  no_space w = true
  /\ Forall (fun w => is_word w = true) ws
  /\ (skip = 0%nat -> exists rest, s = w +:+ rest)
  /\ (String.length w + 2 * length ws <= String.length s)%nat.
Proof.
  induction s as [|c s IH]; intros skip w ws.
  { intros [= <- <-]. repeat split; [done| |done]. by exists "". }
  assert (Hskip : forall k,
    (let '(w, ws) := scan k s in ("", cons_word w ws)) = (w, ws) ->
    no_space w = true
    /\ Forall (fun w => is_word w = true) ws
    /\ (exists rest, String c s = w +:+ rest)
    /\ (String.length w + 2 * length ws <= String.length (String c s))%nat).
  { intros k. destruct (scan k s) as [w1 ws1] eqn:E. intros [= <- <-].
    destruct (IH _ _ _ E) as (Hw1 & Hws1 & _ & Hlen).
    repeat split; [by apply cons_word_words|by eexists|].
    pose proof (cons_word_length w1 ws1). cbn [String.length]. lia. }
  cbn [scan]. destruct skip as [|k].
  - destruct (space_width (String c s)) as [|k] eqn:Hsw.
    + destruct (scan 0 s) as [w1 ws1] eqn:E. intros [= <- <-].
      destruct (IH _ _ _ E) as (Hw1 & Hws1 & [rest Hrest] & Hlen); [done|].
      repeat split; [|done|by exists rest; rewrite append_cons, <- Hrest|].
      * cbn [no_space]. rewrite Hw1, andb_true_r. apply Nat.eqb_eq.
        apply (space_width_inside _ rest); [done|].
        by rewrite append_cons, <- Hrest.
      * cbn [String.length]. lia.
    + intros H. destruct (Hskip _ H) as (? & ? & ? & ?). done.
  - intros H. destruct (Hskip _ H) as (? & ? & ? & ?). done.
Qed.

(** Every field is a word. *)
Lemma Fields_words s : Forall (fun w => is_word w = true) (Fields s).
Proof.
  unfold Fields. destruct (scan 0 s) as [w ws] eqn:E.
  destruct (scan_spec _ _ _ _ E) as (Hw & Hws & _). by apply cons_word_words.
Qed.

(** [n] words take at least [2 * n - 1] bytes. *)
Lemma Fields_length s :
  (2 * length (Fields s) <= String.length s + 1)%nat.
Proof.
  unfold Fields. destruct (scan 0 s) as [w ws] eqn:E.
  destruct (scan_spec _ _ _ _ E) as (_ & _ & _ & Hlen).
  pose proof (cons_word_length w ws). lia.
Qed.

(** A Go string has an [int] length, so its words are at most [2^62]. *)
Lemma Fields_len_bound s :
  Z.of_nat (String.length s) <= GoInt.MaxInt -> len (Fields s) <= 2 ^ 62.
Proof.
  unfold GoInt.MaxInt, len. pose proof (Fields_length s). lia.
Qed.

(** The words of a chunk are the words of its window. *)
Lemma Fields_chunk_of text span :
  Fields (chunk_of (Fields text) span) = window (Fields text) span.
Proof.
  apply Fields_Join. unfold window.
  apply Forall_take, Forall_drop, Fields_words.
Qed.

Lemma window_length {A} (l : list A) a b :
  0 <= a -> a <= b -> b <= len l -> len (window l (a, b)) = b - a.
Proof.
  intros Ha Hab Hb. unfold window, len in *. cbn [fst snd].
  rewrite length_take, length_drop. lia.
Qed.

Lemma windows_fuel n size stride : forall fuel1 fuel2 i,
  0 < size -> 0 < stride ->
  1 + Z.max 0 (n - i - size) <= Z.of_nat fuel1 ->
  1 + Z.max 0 (n - i - size) <= Z.of_nat fuel2 ->
  windows fuel1 n size stride i = windows fuel2 n size stride i.
Proof.
  induction fuel1 as [|fuel1 IH]; intros fuel2 i Hsize Hstride H1 H2; [lia|].
  destruct fuel2 as [|fuel2]; [lia|]. cbn [windows].
  destruct (i <? n); [|done]. cbn [negb]. f_equal.
  destruct (Z.eqb_spec (Z.min (i + size) n) n); [done|].
  apply IH; lia.
Qed.

Lemma ChunkText_fuel_windows text size stride fuel :
  go_string text -> positive_int size -> positive_int stride ->
  (length (Fields text) <= fuel)%nat ->
  ChunkText_fuel fuel text size stride
  = Returned (map (chunk_of (Fields text)) (spans_of text size stride)).
Proof.
  intros Htext Hsize Hstride Hfuel. unfold ChunkText_fuel, spans_of.
  pose proof (Fields_len_bound _ Htext) as Hlen.
  destruct (Z.eqb_spec (len (Fields text)) 0) as [H0|H0].
  { unfold len in H0. by destruct (Fields text). }
  assert (Hpos : 0 < len (Fields text)) by (unfold len in *; lia).
  pose proof (ChunkText_loop_trace fuel (Fields text) size stride 0 [] []) as Hlt.
  cbn [map app] in Hlt. rewrite Hlt.
  destruct Hsize, Hstride.
  rewrite ChunkText_trace_windows;
    [|done|done|done|lia|by left|unfold len in *; lia].
  cbn [outcome_map app]. do 2 f_equal.
  apply windows_fuel; unfold len in *; lia.
Qed.

Lemma ChunkText_windows text size stride :
  go_string text -> positive_int size -> positive_int stride ->
  ChunkText text size stride
  = Returned (map (chunk_of (Fields text)) (spans_of text size stride)).
Proof. intros. apply ChunkText_fuel_windows; [done..|lia]. Qed.

Lemma ChunkText_spans_windows text size stride :
  go_string text -> positive_int size -> positive_int stride ->
  ChunkText_spans text size stride = Returned (spans_of text size stride).
Proof.
  intros Htext Hsize Hstride. unfold ChunkText_spans, spans_of.
  pose proof (Fields_len_bound _ Htext) as Hlen.
  destruct (Z.eqb_spec (len (Fields text)) 0) as [Hz|Hz].
  { unfold len in Hz. by destruct (Fields text). }
  rewrite ChunkText_trace_start; [|done..|unfold len in *; lia|lia].
  f_equal. destruct Hsize, Hstride.
  apply windows_fuel; unfold len in *; lia.
Qed.

(** ** The fuel of [ChunkText] is enough

    Whatever the size and the stride, the model runs out of fuel only where
    the loop of the code does not end, which takes a stride of 0. *)
Section Fuel.

Variable words : list string.
Variables size stride : Z.
Hypothesis Hsize : GoInt.in_range size.
Hypothesis Hstride : GoInt.in_range stride.
Hypothesis Hlen : 0 < len words <= 2 ^ 62.

Lemma ChunkText_loop_size_zero fuel : forall i chunks,
  size = 0 -> 0 < stride ->
  0 <= i -> i = 0 \/ stride <= i ->
  1 + Z.max 0 (len words - i) <= Z.of_nat fuel ->
  exists r, ChunkText_loop fuel words size stride i chunks = Returned r.
Proof.
  unfold GoInt.in_range, GoInt.MinInt, GoInt.MaxInt in *.
  induction fuel as [|fuel IH]; intros i chunks Hz Hpos Hi Hinv Hfuel; [lia|].
  cbn [ChunkText_loop].
  destruct (Z.ltb_spec i (len words)) as [Hlt|Hge]; cbn [negb]; [|by eexists].
  assert (Hadd : GoInt.add i size = i).
  { rewrite add_in_range; unfold GoInt.in_range, GoInt.MinInt, GoInt.MaxInt; lia. }
  rewrite Hadd.
  destruct (Z.gtb_spec i (len words)) as [?|_]; [lia|].
  unfold slice.
  replace ((0 <=? i) && (i <=? i) && (i <=? len words)) with true
    by (symmetry; rewrite !andb_true_iff, !Z.leb_le; lia).
  destruct (Z.eqb_spec i (len words)) as [?|_]; [lia|].
  assert (Hstep : GoInt.add i stride = i + stride).
  { apply add_in_range. unfold GoInt.in_range, GoInt.MinInt, GoInt.MaxInt. lia. }
  rewrite Hstep. apply IH; lia.
Qed.

Lemma ChunkText_loop_negative_size fuel chunks :
  size < 0 -> ChunkText_loop (S fuel) words size stride 0 chunks = Panicked.
Proof.
  intros Hneg. cbn [ChunkText_loop].
  destruct (Z.ltb_spec 0 (len words)) as [_|?]; [|lia]. cbn [negb].
  rewrite add_in_range by done. rewrite Z.add_0_l.
  destruct (Z.gtb_spec size (len words)) as [?|_]; [lia|].
  unfold slice. destruct (Z.leb_spec 0 size) as [?|_]; [lia|].
  by rewrite andb_false_r.
Qed.

Lemma ChunkText_loop_negative_stride fuel chunks :
  stride < 0 ->
  ChunkText_loop (S (S fuel)) words size stride 0 chunks <> OutOfFuel.
Proof.
  intros Hneg. cbn [ChunkText_loop].
  destruct (Z.ltb_spec 0 (len words)) as [_|?]; [|lia]. cbn [negb].
  destruct (slice words 0 _); [|done].
  destruct (_ =? len words); [done|].
  rewrite (add_in_range 0 stride) by done. rewrite Z.add_0_l.
  destruct (Z.ltb_spec stride (len words)) as [_|?]; [|lia]. cbn [negb].
  unfold slice. destruct (Z.leb_spec 0 stride) as [?|_]; [lia|]. done.
Qed.

(** With a stride of 0 the first round decides: the loop ends there or
    never. *)
Lemma ChunkText_loop_zero_stride fuel chunks :
  stride = 0 ->
  ChunkText_loop (S fuel) words size stride 0 chunks = OutOfFuel ->
  forall fuel' chunks',
    ChunkText_loop fuel' words size stride 0 chunks' = OutOfFuel.
Proof.
  intros -> Hout fuel'. cbn [ChunkText_loop] in Hout.
  destruct (Z.ltb_spec 0 (len words)) as [_|?]; [|lia]. cbn [negb] in Hout.
  induction fuel' as [|fuel' IH]; intros chunks'; [done|].
  cbn [ChunkText_loop].
  destruct (Z.ltb_spec 0 (len words)) as [_|?]; [|lia]. cbn [negb].
  destruct (slice words 0 _); [|done].
  destruct (_ =? len words); [done|].
  change (GoInt.add 0 0) with 0. apply IH.
Qed.

End Fuel.

Lemma ChunkText_OutOfFuel text size stride :
  go_string text -> GoInt.in_range size -> GoInt.in_range stride ->
  ChunkText text size stride = OutOfFuel ->
  stride = 0
  /\ forall fuel, ChunkText_fuel fuel text size stride = OutOfFuel.
Proof.
  intros Htext Hsize Hstride. unfold ChunkText, ChunkText_fuel.
  pose proof (Fields_len_bound _ Htext) as Hlen.
  destruct (Z.eqb_spec (len (Fields text)) 0) as [Hz|Hz]; [done|].
  assert (Hpos : 0 < len (Fields text) <= 2 ^ 62) by (unfold len in *; lia).
  intros Hout.
  destruct (Z.lt_trichotomy stride 0) as [Hneg|[Hzero|Hspos]].
  - destruct (length (Fields text)) as [|n] eqn:Hn; [unfold len in *; lia|].
    by eapply ChunkText_loop_negative_stride in Hout.
  - split; [done|]. intros fuel.
    by eapply ChunkText_loop_zero_stride.
  - exfalso. destruct (Z.lt_trichotomy size 0) as [Hsneg|[Hszero|Hszpos]].
    + by rewrite ChunkText_loop_negative_size in Hout.
    + destruct (ChunkText_loop_size_zero (Fields text) size stride Hstride Hpos
                  (S (length (Fields text))) 0 [])
        as [r Hr]; [done|done|done|by left|unfold len; lia|].
      by rewrite Hr in Hout.
    + pose proof (ChunkText_windows text size stride Htext) as Hw.
      unfold ChunkText, ChunkText_fuel in Hw.
      destruct (Z.eqb_spec (len (Fields text)) 0) as [?|_]; [done|].
      rewrite Hw in Hout; [done|..];
        unfold positive_int, GoInt.in_range in *; lia.
Qed.

Lemma spans_of_length text size stride :
  0 < size -> 0 < stride -> 0 < len (Fields text) ->
  len (spans_of text size stride)
  = Z.min (cdiv (Z.max 0 (len (Fields text) - size)) stride + 1)
          (cdiv (len (Fields text)) stride).
Proof.
  intros Hsize Hstride Hpos. unfold spans_of.
  rewrite windows_length by (unfold len in *; lia).
  by rewrite !Z.sub_0_r.
Qed.

Lemma cdiv_mono a a' b : 0 < b -> a <= a' -> cdiv a b <= cdiv a' b.
Proof. intros Hb Ha. unfold cdiv. apply Z.div_le_mono; lia. Qed.

(** ** The number of chunks *)

Ltac solve_wf :=
  unfold go_string, positive_int, GoInt.MaxInt; cbn; lia.

(** C1, as stated, fails: ten words cut with size 2 and stride 5 give the two
    chunks at word 0 and word 5, and then the start index 10 is past the
    last word; the stated count is 3. *)
Lemma ChunkText_count_counterexample :
  len (Fields "a b c d e f g h i j") = 10
  /\ ChunkText "a b c d e f g h i j" 2 5 = Returned ["a b"; "f g"]
  /\ stated_count (len (Fields "a b c d e f g h i j")) 2 5 = 3
  /\ ~ (forall chunks,
          ChunkText "a b c d e f g h i j" 2 5 = Returned chunks ->
          len chunks = stated_count (len (Fields "a b c d e f g h i j")) 2 5).
Proof.
  split; [by vm_compute|]. split; [by vm_compute|].
  split; [by vm_compute|].
  intros H. specialize (H _ eq_refl). vm_compute in H. discriminate.
Qed.

(** C1, amended: for a text of [N] words, size [S > 0] and stride [T > 0],
    [ChunkText] returns [min (ceil (max 0 (N - S) / T) + 1) (ceil (N / T))]
    chunks when [N > 0] and none when [N = 0]; this is
    [ceil (max 0 (N - S) / T) + 1] whenever [T <= S]. *)
Theorem ChunkText_count text size stride :
  go_string text -> positive_int size -> positive_int stride ->
  exists chunks,
    ChunkText text size stride = Returned chunks
    /\ len chunks = chunk_count (len (Fields text)) size stride
    /\ (len (Fields text) = 0 -> chunks = [])
    /\ (stride <= size ->
        len chunks = stated_count (len (Fields text)) size stride).
Proof.
  intros Htext Hsize Hstride. eexists. split; [by apply ChunkText_windows|].
  assert (Hmap : len (map (chunk_of (Fields text)) (spans_of text size stride))
                 = len (spans_of text size stride))
    by (unfold len; by rewrite length_map).
  rewrite Hmap. clear Hmap. unfold chunk_count, stated_count.
  destruct Hsize as [Hsize _], Hstride as [Hstride _].
  destruct (Z.eqb_spec (len (Fields text)) 0) as [Hz|Hz].
  - unfold spans_of. unfold len in Hz.
    destruct (Fields text); [done|cbn [length] in Hz; lia].
  - assert (Hpos : 0 < len (Fields text)) by (unfold len in *; lia).
    rewrite (spans_of_length text size stride Hsize Hstride Hpos).
    split; [done|]. split; [lia|]. intros Hle.
    apply Z.min_l.
    destruct (Z.le_gt_cases (len (Fields text) - size) 0).
    + rewrite Z.max_l by lia. rewrite cdiv_zero by lia.
      pose proof (cdiv_pos (len (Fields text)) stride). lia.
    + rewrite Z.max_r by lia.
      replace (len (Fields text))
        with (len (Fields text) - stride + stride) at 2 by lia.
      rewrite cdiv_add by lia.
      pose proof (cdiv_mono (len (Fields text) - size)
                    (len (Fields text) - stride) stride). lia.
Qed.

Lemma ChunkText_count_witness :
  exists chunks,
    ChunkText "a b c d e f g h i j" 2 5 = Returned chunks
    /\ len chunks = chunk_count (len (Fields "a b c d e f g h i j")) 2 5
    /\ (len (Fields "a b c d e f g h i j") = 0 -> chunks = [])
    /\ (5 <= 2 ->
        len chunks = stated_count (len (Fields "a b c d e f g h i j")) 2 5).
Proof. apply (ChunkText_count "a b c d e f g h i j" 2 5); solve_wf. Defined.

(** ** A stride past the end *)

(** C2: when the text has at least one word and the stride is at least the
    number of words, [ChunkText] returns exactly one chunk, the first [size]
    words joined; these are all the words when there are at most [size]. *)
Theorem ChunkText_big_stride text size stride :
  go_string text -> positive_int size -> positive_int stride ->
  0 < len (Fields text) -> len (Fields text) <= stride ->
  ChunkText text size stride
  = Returned [Join (take (Z.to_nat size) (Fields text)) " "]
  /\ (len (Fields text) <= size ->
      ChunkText text size stride = Returned [Join (Fields text) " "]).
Proof.
  intros Htext Hsize Hstride Hpos Hbig.
  rewrite ChunkText_windows by done. unfold spans_of.
  destruct (length (Fields text)) as [|fuel] eqn:Hn;
    [unfold len in Hpos; lia|].
  rewrite windows_single by (destruct Hstride; done).
  cbn [map]. unfold chunk_of, window. cbn [fst snd].
  rewrite Z.sub_0_r, drop_0.
  assert (Htake : take (Z.to_nat (Z.min size (len (Fields text)))) (Fields text)
                  = take (Z.to_nat size) (Fields text)).
  { destruct (Z.le_gt_cases size (len (Fields text))).
    - by rewrite Z.min_l.
    - rewrite Z.min_r by lia.
      rewrite !take_ge; [done|unfold len in *; lia..]. }
  rewrite Htake. split; [done|]. intros Hall.
  rewrite take_ge; [done|unfold len in *; lia].
Qed.

Lemma ChunkText_big_stride_witness :
  ChunkText "a b c d e f g h i j" 100 500
  = Returned [Join (take (Z.to_nat 100) (Fields "a b c d e f g h i j")) " "]
  /\ (len (Fields "a b c d e f g h i j") <= 100 ->
      ChunkText "a b c d e f g h i j" 100 500
      = Returned [Join (Fields "a b c d e f g h i j") " "]).
Proof.
  apply (ChunkText_big_stride "a b c d e f g h i j" 100 500);
    try solve_wf; by vm_compute.
Defined.

(** ** The size of the chunks *)

Lemma spans_of_bounds text size stride k a b :
  0 < size -> 0 < stride ->
  spans_of text size stride !! k = Some (a, b) ->
  a = Z.of_nat k * stride
  /\ 0 <= a /\ a < b /\ b <= len (Fields text) /\ b - a <= size.
Proof.
  intros Hsize Hstride Hk.
  apply windows_lookup in Hk as (Ha & Hb & Hlt); [|done]. nia.
Qed.

Lemma chunks_lookup text size stride k c :
  map (chunk_of (Fields text)) (spans_of text size stride) !! k = Some c ->
  exists a b,
    spans_of text size stride !! k = Some (a, b)
    /\ c = chunk_of (Fields text) (a, b).
Proof.
  rewrite list_lookup_fmap. intros Hk.
  destruct (spans_of text size stride !! k) as [[a b]|]; [|done].
  injection Hk as <-. by exists a, b.
Qed.

(** C6: every chunk but possibly the last has exactly [size] words, and the
    last has between 1 and [size] words. *)
Theorem ChunkText_chunk_sizes text size stride :
  go_string text -> positive_int size -> positive_int stride ->
  exists chunks,
    ChunkText text size stride = Returned chunks
    /\ forall k c, chunks !! k = Some c ->
         ((S k < length chunks)%nat -> len (Fields c) = size)
         /\ 1 <= len (Fields c) <= size.
Proof.
  intros Htext Hsize Hstride. eexists. split; [by apply ChunkText_windows|].
  intros k c Hk. destruct Hsize as [Hsize _], Hstride as [Hstride _].
  apply chunks_lookup in Hk as (a & b & Hk & ->).
  rewrite Fields_chunk_of.
  destruct (spans_of_bounds _ _ _ _ _ _ Hsize Hstride Hk) as (_ & ? & ? & ? & ?).
  rewrite window_length by lia. split; [|lia].
  rewrite length_map. intros Hinner.
  apply (windows_inner _ _ _ Hstride) in Hk as [-> _]; [lia|done].
Qed.

Lemma ChunkText_chunk_sizes_witness :
  exists chunks,
    ChunkText "a b c d e f g h i j k l" 5 5 = Returned chunks
    /\ forall k c, chunks !! k = Some c ->
         ((S k < length chunks)%nat -> len (Fields c) = 5)
         /\ 1 <= len (Fields c) <= 5.
Proof. apply (ChunkText_chunk_sizes "a b c d e f g h i j k l" 5 5); solve_wf. Defined.

(** ** Coverage *)

(** C7: with [stride <= size] every word index of the split text lies in
    the window of some chunk, and that chunk has the word at its place. *)
Theorem ChunkText_cover text size stride :
  go_string text -> positive_int size -> positive_int stride ->
  stride <= size ->
  exists spans chunks,
    ChunkText_spans text size stride = Returned spans
    /\ ChunkText text size stride = Returned chunks
    /\ forall j w, Fields text !! j = Some w ->
         exists k a b c,
           spans !! k = Some (a, b) /\ chunks !! k = Some c
           /\ a <= Z.of_nat j < b
           /\ Fields c !! (j - Z.to_nat a)%nat = Some w.
Proof.
  intros Htext Hsize Hstride Hle. eexists _, _.
  split; [by apply ChunkText_spans_windows|].
  split; [by apply ChunkText_windows|].
  intros j w Hj. destruct Hsize as [Hsize _], Hstride as [Hstride _].
  pose proof (lookup_lt_Some _ _ _ Hj) as Hjlt.
  destruct (windows_cover (len (Fields text)) size stride Hsize Hstride
              (length (Fields text)) 0 (Z.of_nat j))
    as (k & a & b & Hk & Hab); [done|lia|unfold len; lia|unfold len; lia|].
  exists k, a, b, (chunk_of (Fields text) (a, b)).
  split; [done|]. split.
  { rewrite list_lookup_fmap. unfold spans_of. by rewrite Hk. }
  split; [done|].
  destruct (spans_of_bounds text _ _ _ _ _ Hsize Hstride Hk) as (_ & ? & ? & ? & ?).
  rewrite Fields_chunk_of. unfold window. cbn [fst snd].
  rewrite lookup_take_lt by lia. rewrite lookup_drop.
  replace (Z.to_nat a + (j - Z.to_nat a))%nat with j by lia. done.
Qed.

Lemma ChunkText_cover_witness :
  exists spans chunks,
    ChunkText_spans "a b c d e f g" 3 2 = Returned spans
    /\ ChunkText "a b c d e f g" 3 2 = Returned chunks
    /\ forall j w, Fields "a b c d e f g" !! j = Some w ->
         exists k a b c,
           spans !! k = Some (a, b) /\ chunks !! k = Some c
           /\ a <= Z.of_nat j < b
           /\ Fields c !! (j - Z.to_nat a)%nat = Some w.
Proof. apply (ChunkText_cover "a b c d e f g" 3 2); solve_wf. Defined.

(** ** Termination *)

Lemma cdiv_le a b : 0 <= a -> 0 < b -> cdiv a b <= a.
Proof.
  intros Ha Hb. unfold cdiv.
  destruct (Z.eq_dec a 0) as [->|Hne].
  - rewrite Z.div_small; lia.
  - apply Z.div_le_upper_bound; nia.
Qed.

(** C10: for every text, size [>= 1] and stride [>= 1] the loop of
    [ChunkText] ends: one round for each word is enough fuel, more fuel
    gives the same chunks, the [k]-th window starts at [k * stride], no
    window but the last reaches the end of the words, and there are at most
    as many chunks as words. *)
Theorem ChunkText_terminates text size stride :
  go_string text -> positive_int size -> positive_int stride ->
  exists spans chunks,
    (forall fuel, (length (Fields text) <= fuel)%nat ->
       ChunkText_fuel fuel text size stride = Returned chunks)
    /\ ChunkText_spans text size stride = Returned spans
    /\ length chunks = length spans
    /\ (forall k a b, spans !! k = Some (a, b) -> a = Z.of_nat k * stride)
    /\ (forall k a b, spans !! k = Some (a, b) ->
          (S k < length spans)%nat -> b < len (Fields text))
    /\ (length chunks <= length (Fields text))%nat.
Proof.
  intros Htext Hsize Hstride. eexists _, _.
  split; [intros fuel Hfuel; by apply ChunkText_fuel_windows|].
  split; [by apply ChunkText_spans_windows|].
  rewrite length_map. split; [done|].
  destruct Hsize as [Hsize _], Hstride as [Hstride _]. split; [|split].
  - intros k a b Hk.
    by destruct (spans_of_bounds text _ _ _ _ _ Hsize Hstride Hk) as (? & _).
  - intros k a b Hk Hinner.
    by destruct (windows_inner _ _ _ Hstride _ _ _ _ _ Hk Hinner).
  - destruct (Nat.eq_dec (length (Fields text)) 0%nat) as [Hz|Hz].
    + unfold spans_of. rewrite Hz. cbn. lia.
    + pose proof (spans_of_length text size stride Hsize Hstride) as Hcount.
      pose proof (cdiv_le (len (Fields text)) stride).
      unfold len in *. lia.
Qed.

Lemma ChunkText_terminates_witness :
  exists spans chunks,
    (forall fuel, (length (Fields "a b c d e f g") <= fuel)%nat ->
       ChunkText_fuel fuel "a b c d e f g" 1 1 = Returned chunks)
    /\ ChunkText_spans "a b c d e f g" 1 1 = Returned spans
    /\ length chunks = length spans
    /\ (forall k a b, spans !! k = Some (a, b) -> a = Z.of_nat k * 1)
    /\ (forall k a b, spans !! k = Some (a, b) ->
          (S k < length spans)%nat -> b < len (Fields "a b c d e f g"))
    /\ (length chunks <= length (Fields "a b c d e f g"))%nat.
Proof. apply (ChunkText_terminates "a b c d e f g" 1 1); solve_wf. Defined.

(** * The clients *)

Section Clients.

Context `{E : Env}.

Lemma bind_run {A B} (m : M A) (f : A -> M B) (s : State) :
  (m ≫= f) s = let '(a, s') := m s in f a s'.
Proof. reflexivity. Qed.

(** C5: [getEmbedding] makes one call.  It returns an error exactly when the
    call fails, or the status is not 200 (the error then carries the status
    and the body), or the body does not decode; otherwise it returns the
    decoded vector. *)
Theorem getEmbedding_result (h : Handler) (text : string) (s : State) :
  let req := embedding_request h text in
  let resp := (http_Do req (world s)).1 in
  let r := (getEmbedding h text s).1 in
  (is_Err r <->
     (exists err, resp = TransportError err)
     \/ (exists code body, resp = Response code body /\ code <> StatusOK)
     \/ (exists body, resp = Response StatusOK body
                      /\ is_Err (decode_EmbeddingResponse body)))
  /\ (forall err, resp = TransportError err ->
        r = Err ("http post error: " +:+ err))
  /\ (forall code body, resp = Response code body -> code <> StatusOK ->
        r = Err ("ollama returned status " +:+ itoa code +:+ ": " +:+ body))
  /\ (forall body err, resp = Response StatusOK body ->
        decode_EmbeddingResponse body = Err err ->
        r = Err ("failed to decode response: " +:+ err))
  /\ (forall body res, resp = Response StatusOK body ->
        decode_EmbeddingResponse body = Ok res -> r = Ok (Embedding res))
  /\ trace (getEmbedding h text s).2 = trace s ++ [EvHttp req resp].
Proof.
  cbv zeta. unfold getEmbedding, http_Post, is_Err.
  fold (embedding_request h text). rewrite bind_run. unfold http_call.
  destruct (http_Do (embedding_request h text) (world s)) as [resp w].
  cbn [fst snd]. destruct resp as [err|code body].
  - cbn. split; [|repeat split; intros; simplify_eq; first [done|congruence]].
    split; [intros _; left; by eexists|by eexists].
  - destruct (Z.eqb_spec code StatusOK) as [->|Hcode]; cbn [negb].
    + destruct (decode_EmbeddingResponse body) as [res|err] eqn:Hdec; cbn.
      * split; [|repeat split; intros; simplify_eq; first [done|congruence]].
        split; [by intros [? ?]|].
        intros [[? ?]|[(? & ? & ? & ?)|(? & ? & ? & ?)]]; simplify_eq; congruence.
      * split; [|repeat split; intros; simplify_eq; first [done|congruence]].
        split; [|by eexists]. intros _. right; right.
        exists body. split; [done|]. rewrite Hdec. by eexists.
    + cbn. split; [|repeat split; intros; simplify_eq; first [done|congruence]].
      split; [|by eexists]. intros _. right; left. by exists code, body.
Qed.

Lemma createCollection_result (h : Handler) (name : string) (s : State) :
  let create := create_request h name in
  let resp2 := (http_Do create (world s)).1 in
  let r := (createCollection h name s).1 in
  trace (createCollection h name s).2 = trace s ++ [EvHttp create resp2]
  /\ (forall err, resp2 = TransportError err ->
        r = Err ("failed to POST to " +:+ rURL create +:+ ": " +:+ err))
  /\ (forall code body, resp2 = Response code body ->
        code <> StatusOK -> code <> StatusCreated ->
        r = Err ("create collection at " +:+ rURL create
                 +:+ " returned status " +:+ itoa code +:+ ": " +:+ body))
  /\ (forall code body, resp2 = Response code body ->
        code = StatusOK \/ code = StatusCreated ->
        (forall ID, unmarshal_ID body = Ok ID -> ID <> "" -> r = Ok ID)
        /\ (unmarshal_ID body = Ok "" ->
            r = Err "received empty collection ID from ChromaDB")
        /\ (forall err, unmarshal_ID body = Err err ->
              r = Err ("failed to decode create collection response: "
                       +:+ err))).
Proof.
  cbv zeta. unfold createCollection, http_Post.
  fold (create_request h name). rewrite bind_run. unfold http_call.
  destruct (http_Do (create_request h name) (world s)) as [resp2 w2].
  cbn [fst snd]. destruct resp2 as [err|code body].
  - cbn. repeat split; intros; simplify_eq; done.
  - destruct (Z.eqb_spec code StatusOK) as [->|Hok];
      [|destruct (Z.eqb_spec code StatusCreated) as [->|Hcr]];
      cbn [negb andb].
    3:{ cbn. repeat split; intros; simplify_eq; try done.
        all: by destruct H0. }
    all: destruct (unmarshal_ID body) as [ID|err] eqn:Hun;
      [destruct (String.eqb_spec ID "") as [->|Hne]|]; cbn;
      repeat split; intros; simplify_eq; first [done|congruence].
Qed.

(** C4: [getOrCreateCollection] first sends the GET.  On a 200 it sends
    nothing else and returns the decoded identifier.  On a transport error
    or any other status it sends the create POST; a 200 or 201 gives the
    decoded identifier, or an error when that identifier is empty; any other
    status gives an error that carries the status and the body. *)
Theorem getOrCreateCollection_result (h : Handler) (name : string) (s : State) :
  let get := get_request h name in
  let resp1 := (http_Do get (world s)).1 in
  let create := create_request h name in
  let resp2 := (http_Do create (http_Do get (world s)).2).1 in
  let r := (getOrCreateCollection h name s).1 in
  let tr := trace (getOrCreateCollection h name s).2 in
  (forall body, resp1 = Response StatusOK body ->
     tr = trace s ++ [EvHttp get resp1]
     /\ (forall ID, decode_ID body = Ok ID -> r = Ok ID)
     /\ (forall err, decode_ID body = Err err ->
           r = Err ("failed to decode get collection response: " +:+ err)))
  /\ ((exists err, resp1 = TransportError err)
      \/ (exists code body, resp1 = Response code body /\ code <> StatusOK) ->
      tr = trace s ++ [EvHttp get resp1; EvHttp create resp2]
      /\ (forall err, resp2 = TransportError err ->
            r = Err ("failed to POST to " +:+ rURL create +:+ ": " +:+ err))
      /\ (forall code body, resp2 = Response code body ->
            code <> StatusOK -> code <> StatusCreated ->
            r = Err ("create collection at " +:+ rURL create
                     +:+ " returned status " +:+ itoa code +:+ ": " +:+ body))
      /\ (forall code body, resp2 = Response code body ->
            code = StatusOK \/ code = StatusCreated ->
            (forall ID, unmarshal_ID body = Ok ID -> ID <> "" -> r = Ok ID)
            /\ (unmarshal_ID body = Ok "" ->
                r = Err "received empty collection ID from ChromaDB")
            /\ (forall err, unmarshal_ID body = Err err ->
                  r = Err ("failed to decode create collection response: "
                           +:+ err)))).
Proof.
  cbv zeta. unfold getOrCreateCollection, http_Get.
  fold (get_request h name). rewrite bind_run. unfold http_call.
  destruct (http_Do (get_request h name) (world s)) as [resp1 w1].
  cbn [fst snd].
  destruct resp1 as [err|code body].
  - split; [by intros|]. intros _.
    pose proof (createCollection_result h name
      {| world := w1;
         trace := trace s ++ [EvHttp (get_request h name) (TransportError err)] |})
      as Hcreate.
    cbv zeta in Hcreate. cbn [trace world] in Hcreate.
    rewrite <- app_assoc in Hcreate. exact Hcreate.
  - destruct (Z.eqb_spec code StatusOK) as [->|Hcode].
    + split.
      * intros body' [= <-].
        destruct (decode_ID body) as [ID|err]; cbn;
          repeat split; intros; simplify_eq; done.
      * intros [[? ?]|(? & ? & ? & ?)]; simplify_eq.
    + split; [intros body' ?; simplify_eq|]. intros _.
      pose proof (createCollection_result h name
        {| world := w1;
           trace := trace s ++ [EvHttp (get_request h name) (Response code body)] |})
        as Hcreate.
      cbv zeta in Hcreate. cbn [trace world] in Hcreate.
      rewrite <- app_assoc in Hcreate. exact Hcreate.
Qed.

End Clients.

Example processPDF_sim_run :
  let out := processPDF test_handler "/tmp/x.pdf" "x.pdf" 1 1
               (sim_state (fun k => Nat.eqb k 1)
                  (sim_start "/tmp/x.pdf" "one two three")) in
  out.1 = Returned None
  /\ sim_stored (world out.2)
     = [(["one"], [chunk_metadata "x.pdf" 1]);
        (["three"], [chunk_metadata "x.pdf" 3])].
Proof. vm_compute. done. Qed.

(** * Ingestion *)

Section Ingestion.

Context `{E : Env}.

Lemma embedding_prompts_app tr1 tr2 :
  embedding_prompts (tr1 ++ tr2)
  = embedding_prompts tr1 ++ embedding_prompts tr2.
Proof. apply omap_app. Qed.

Lemma emits_ret {A} (a : A) (P : list Event -> Prop) :
  P [] -> emits (mret a) P.
Proof. intros HP s. exists []. by rewrite app_nil_r. Qed.

Lemma emits_bind {A B} (m : M A) (f : A -> M B) (P Q R : list Event -> Prop) :
  emits m P -> (forall a, emits (f a) Q) ->
  (forall e1 e2, P e1 -> Q e2 -> R (e1 ++ e2)) ->
  emits (m ≫= f) R.
Proof.
  intros Hm Hf HR s. rewrite bind_run.
  destruct (Hm s) as (e1 & Ht1 & HP1). destruct (m s) as [a s1].
  destruct (Hf a s1) as (e2 & Ht2 & HQ2).
  exists (e1 ++ e2). cbn [snd] in *. rewrite Ht2, Ht1, app_assoc. auto.
Qed.

Lemma emits_weaken {A} (m : M A) (P Q : list Event -> Prop) :
  emits m P -> (forall e, P e -> Q e) -> emits m Q.
Proof. intros Hm HPQ s. destruct (Hm s) as (e & ? & ?). eauto. Qed.

Lemma emits_http req :
  emits (http_call req) (fun evs => exists res, evs = [EvHttp req res]).
Proof.
  intros s. unfold http_call. destruct (http_Do req (world s)) as [res w].
  cbn. eauto.
Qed.

Lemma emits_log msg : emits (log_Printf msg) (fun evs => evs = [EvLog msg]).
Proof. intros s. cbn. eauto. Qed.

Lemma emits_uuid : emits uuid_New_String (fun evs => evs = []).
Proof.
  intros s. unfold uuid_New_String. destruct (uuid_New (world s)).
  exists []. cbn. by rewrite app_nil_r.
Qed.

Lemma no_prompt_app e1 e2 : no_prompt e1 -> no_prompt e2 -> no_prompt (e1 ++ e2).
Proof.
  unfold no_prompt. intros H1 H2. by rewrite embedding_prompts_app, H1, H2.
Qed.

Lemma createCollection_no_prompt h name :
  emits (createCollection h name) no_prompt.
Proof.
  unfold createCollection, http_Post.
  eapply emits_bind; [apply emits_http| |].
  - intros resp. instantiate (1 := fun evs => evs = []).
    destruct resp as [err|code body]; [by apply emits_ret|].
    destruct (_ && _); [by apply emits_ret|].
    destruct (unmarshal_ID body) as [ID|err]; [|by apply emits_ret].
    destruct (String.eqb ID ""); by apply emits_ret.
  - intros e1 e2 [res ->] ->. done.
Qed.

Lemma getOrCreateCollection_no_prompt h name :
  emits (getOrCreateCollection h name) no_prompt.
Proof.
  unfold getOrCreateCollection, http_Get.
  eapply emits_bind; [apply emits_http| |].
  - intros resp. instantiate (1 := no_prompt).
    destruct resp as [err|code body];
      [apply createCollection_no_prompt|].
    destruct (code =? StatusOK); [|apply createCollection_no_prompt].
    destruct (decode_ID body); by apply emits_ret.
  - intros e1 e2 [res ->] He2. by apply no_prompt_app.
Qed.

Lemma addToChroma_no_prompt h text embedding filename chunkNum :
  emits (addToChroma h text embedding filename chunkNum) no_prompt.
Proof.
  unfold addToChroma.
  eapply emits_bind; [apply getOrCreateCollection_no_prompt| |].
  - intros r. instantiate (1 := no_prompt).
    destruct r as [colID|err]; [|by apply emits_ret].
    eapply emits_bind; [apply emits_uuid| |].
    + intros id. instantiate (1 := no_prompt). unfold http_Post.
      eapply emits_bind; [apply emits_http| |].
      * intros resp. instantiate (1 := fun evs => evs = []).
        destruct resp as [err|code body]; [by apply emits_ret|].
        destruct (code >=? 300); by apply emits_ret.
      * intros e1 e2 [res ->] ->. done.
    + intros e1 e2 -> He2. done.
  - intros e1 e2. apply no_prompt_app.
Qed.

Lemma getEmbedding_prompt h text :
  emits (getEmbedding h text) (fun evs => embedding_prompts evs = [text]).
Proof.
  unfold getEmbedding, http_Post.
  eapply emits_bind; [apply emits_http| |].
  - intros resp. instantiate (1 := fun evs => evs = []).
    destruct resp as [err|code body]; [by apply emits_ret|].
    destruct (negb _); [by apply emits_ret|].
    destruct (decode_EmbeddingResponse body); by apply emits_ret.
  - intros e1 e2 [res ->] ->. done.
Qed.

Lemma processPDF_round_prompt h filename n i chunk :
  emits (processPDF_round h filename n i chunk)
    (fun evs => embedding_prompts evs = [chunk]).
Proof.
  unfold processPDF_round.
  eapply emits_bind; [apply emits_log| |].
  - intros _. instantiate (1 := fun evs => embedding_prompts evs = [chunk]).
    eapply emits_bind; [apply getEmbedding_prompt| |].
    + intros r. instantiate (1 := no_prompt).
      destruct r as [embedding|err].
      * eapply emits_bind; [apply addToChroma_no_prompt| |].
        -- intros e. instantiate (1 := no_prompt).
           destruct e; eapply emits_weaken; try apply emits_log;
             by intros ? ->.
        -- intros e1 e2. apply no_prompt_app.
      * eapply emits_weaken; [apply emits_log|]. by intros ? ->.
    + intros e1 e2 H1 H2. rewrite embedding_prompts_app, H1, H2. done.
  - intros e1 e2 -> H2. rewrite embedding_prompts_app, H2. done.
Qed.

(** One embedding request for each chunk, in order. *)
Lemma processPDF_loop_prompts h filename n : forall chunks i,
  emits (processPDF_loop h filename n i chunks)
    (fun evs => embedding_prompts evs = chunks).
Proof.
  induction chunks as [|chunk rest IH]; intros i; cbn [processPDF_loop].
  - by apply emits_ret.
  - eapply emits_bind; [apply processPDF_round_prompt|intros _; apply IH|].
    intros e1 e2 H1 H2. cbn beta in *.
    by rewrite embedding_prompts_app, H1, H2.
Qed.

Lemma written_records_app tr1 tr2 :
  written_records (tr1 ++ tr2) = written_records tr1 ++ written_records tr2.
Proof. apply omap_app. Qed.

Lemma no_write_app e1 e2 : no_write e1 -> no_write e2 -> no_write (e1 ++ e2).
Proof.
  unfold no_write. intros H1 H2. by rewrite written_records_app, H1, H2.
Qed.

Lemma createCollection_no_write h name :
  emits (createCollection h name) no_write.
Proof.
  unfold createCollection, http_Post.
  eapply emits_bind; [apply emits_http| |].
  - intros resp. instantiate (1 := fun evs => evs = []).
    destruct resp as [err|code body]; [by apply emits_ret|].
    destruct (_ && _); [by apply emits_ret|].
    destruct (unmarshal_ID body) as [ID|err]; [|by apply emits_ret].
    destruct (String.eqb ID ""); by apply emits_ret.
  - intros e1 e2 [res ->] ->. by destruct res.
Qed.

Lemma getOrCreateCollection_no_write h name :
  emits (getOrCreateCollection h name) no_write.
Proof.
  unfold getOrCreateCollection, http_Get.
  eapply emits_bind; [apply emits_http| |].
  - intros resp. instantiate (1 := no_write).
    destruct resp as [err|code body];
      [apply createCollection_no_write|].
    destruct (code =? StatusOK); [|apply createCollection_no_write].
    destruct (decode_ID body); by apply emits_ret.
  - intros e1 e2 [res ->] He2. apply no_write_app; [by destruct res|done].
Qed.

Lemma getEmbedding_no_write h text : emits (getEmbedding h text) no_write.
Proof.
  unfold getEmbedding, http_Post.
  eapply emits_bind; [apply emits_http| |].
  - intros resp. instantiate (1 := fun evs => evs = []).
    destruct resp as [err|code body]; [by apply emits_ret|].
    destruct (negb _); [by apply emits_ret|].
    destruct (decode_EmbeddingResponse body); by apply emits_ret.
  - intros e1 e2 [res ->] ->. by destruct res.
Qed.

(** [addToChroma] writes the record of its chunk, or nothing. *)
Lemma addToChroma_writes h text embedding filename chunkNum :
  emits (addToChroma h text embedding filename chunkNum)
    (fun evs => written_records evs `sublist_of`
                  [chunk_record filename chunkNum text]).
Proof.
  unfold addToChroma.
  eapply emits_bind; [apply getOrCreateCollection_no_write| |].
  - intros r.
    instantiate (1 := fun evs => written_records evs `sublist_of`
                                   [chunk_record filename chunkNum text]).
    destruct r as [colID|err]; [|apply emits_ret; apply sublist_nil_l].
    eapply emits_bind; [apply emits_uuid| |].
    + intros id.
      instantiate (1 := fun evs => written_records evs `sublist_of`
                                     [chunk_record filename chunkNum text]).
      unfold http_Post.
      eapply emits_bind; [apply emits_http| |].
      * intros resp. instantiate (1 := fun evs => evs = []).
        destruct resp as [err|code body]; [by apply emits_ret|].
        destruct (code >=? 300); by apply emits_ret.
      * intros e1 e2 [res ->] ->. destruct res as [err|code body]; cbn.
        -- apply sublist_nil_l.
        -- destruct (code <? 300); cbn; [done|apply sublist_nil_l].
    + intros e1 e2 -> He2. done.
  - intros e1 e2 H1 H2. by rewrite written_records_app, H1.
Qed.

Lemma processPDF_round_writes h filename n i chunk :
  emits (processPDF_round h filename n i chunk)
    (fun evs => written_records evs `sublist_of`
                  [chunk_record filename (i + 1) chunk]).
Proof.
  unfold processPDF_round.
  eapply emits_bind; [apply emits_log| |].
  - intros _.
    instantiate (1 := fun evs => written_records evs `sublist_of`
                                   [chunk_record filename (i + 1) chunk]).
    eapply emits_bind; [apply getEmbedding_no_write| |].
    + intros r.
      instantiate (1 := fun evs => written_records evs `sublist_of`
                                     [chunk_record filename (i + 1) chunk]).
      destruct r as [embedding|err].
      * eapply emits_bind; [apply addToChroma_writes| |].
        -- intros e. instantiate (1 := no_write).
           destruct e; eapply emits_weaken; try apply emits_log;
             by intros ? ->.
        -- intros e1 e2 H1 H2. cbn beta in *.
           by rewrite written_records_app, H2, app_nil_r.
      * eapply emits_weaken; [apply emits_log|]. intros ? ->.
        apply sublist_nil_l.
    + intros e1 e2 H1 H2. by rewrite written_records_app, H1.
  - intros e1 e2 -> H2. by rewrite written_records_app.
Qed.

(** The records written are records of the chunks, each at most once, in
    order. *)
Lemma processPDF_loop_writes h filename n : forall chunks k i,
  emits (processPDF_loop h filename n i chunks)
    (fun evs => written_records evs `sublist_of`
                  expected_records (fun _ => false) filename k i chunks).
Proof.
  induction chunks as [|chunk rest IH]; intros k i;
    cbn [processPDF_loop expected_records].
  - by apply emits_ret.
  - eapply emits_bind;
      [apply processPDF_round_writes|intros _; apply (IH (S k))|].
    intros e1 e2 H1 H2. cbn beta in *.
    rewrite written_records_app. by apply sublist_app.
Qed.

Lemma ReadPDF_state path (s : State) : (ReadPDF path s).2 = s.
Proof. reflexivity. Qed.

Lemma getEmbedding_state h text (s : State) :
  (getEmbedding h text s).2
  = {| world := (http_Do (embedding_request h text) (world s)).2;
       trace := trace s ++ [EvHttp (embedding_request h text)
                              (http_Do (embedding_request h text) (world s)).1] |}.
Proof.
  unfold getEmbedding, http_Post. fold (embedding_request h text).
  rewrite bind_run. unfold http_call.
  destruct (http_Do (embedding_request h text) (world s)) as [resp w].
  destruct resp as [err|code body]; [done|].
  destruct (negb _); [done|].
  by destruct (decode_EmbeddingResponse body).
Qed.

(** A round whose embedding call fails logs the failure and ends: it sends
    nothing else. *)
Lemma processPDF_round_embedding_failure h filename n i chunk (s : State) err :
  let s0 := (log_Printf (round_start_line n i chunk) s).2 in
  (getEmbedding h chunk s0).1 = Err err ->
  processPDF_round h filename n i chunk s
  = (tt, {| world := (http_Do (embedding_request h chunk) (world s)).2;
            trace := trace s
                     ++ [EvLog (round_start_line n i chunk);
                         EvHttp (embedding_request h chunk)
                           (http_Do (embedding_request h chunk) (world s)).1;
                         EvLog (embedding_warning i err)] |}).
Proof.
  cbv zeta. intros Hr. unfold processPDF_round.
  fold (round_start_line n i chunk). rewrite bind_run.
  destruct (log_Printf (round_start_line n i chunk) s) as [[] s0] eqn:Hlog.
  cbn [snd] in Hr. rewrite bind_run.
  pose proof (getEmbedding_state h chunk s0) as Hst.
  destruct (getEmbedding h chunk s0) as [r s1]. cbn [fst snd] in *. subst r s1.
  unfold log_Printf in *. injection Hlog as <-. cbn [world trace].
  unfold embedding_warning. by rewrite <- !app_assoc.
Qed.

(** A round whose write to the store fails logs the failure and ends. *)
Lemma processPDF_round_store_failure h filename n i chunk (s : State)
    embedding err :
  let s0 := (log_Printf (round_start_line n i chunk) s).2 in
  let s1 := (getEmbedding h chunk s0).2 in
  (getEmbedding h chunk s0).1 = Ok embedding ->
  (addToChroma h chunk embedding filename (i + 1) s1).1 = Some err ->
  processPDF_round h filename n i chunk s
  = log_Printf (store_warning i err)
      (addToChroma h chunk embedding filename (i + 1) s1).2.
Proof.
  cbv zeta. intros Hr He. unfold processPDF_round.
  fold (round_start_line n i chunk). rewrite bind_run.
  destruct (log_Printf (round_start_line n i chunk) s) as [[] s0].
  cbn [snd] in *. rewrite bind_run.
  destruct (getEmbedding h chunk s0) as [r s1]. cbn [fst snd] in *. subst r.
  rewrite bind_run.
  destruct (addToChroma h chunk embedding filename (i + 1) s1) as [e s2].
  cbn [fst snd] in *. by subst e.
Qed.

Lemma processPDF_extraction_failure h path filename chunkSize chunkStride
    (s : State) err :
  (ReadPDF path s).1 = Err err ->
  processPDF h path filename chunkSize chunkStride s
  = (Returned (Some ("failed to read PDF: " +:+ err)), s).
Proof.
  intros Hr. unfold processPDF. rewrite bind_run.
  pose proof (ReadPDF_state path s) as Hs.
  destruct (ReadPDF path s) as [r s0]. cbn [fst snd] in *. by subst r s0.
Qed.

(** After the text is extracted and cut, [processPDF] is the loop between
    three log lines, and returns [nil]. *)
Lemma processPDF_run h path filename chunkSize chunkStride (s : State)
    content chunks :
  (ReadPDF path s).1 = Ok content ->
  ChunkText content chunkSize chunkStride = Returned chunks ->
  exists line1 line2 line3,
    let s1 := {| world := world s;
                 trace := (trace s ++ [EvLog line1]) ++ [EvLog line2] |} in
    let s2 := (processPDF_loop h filename (len chunks) 0 chunks s1).2 in
    processPDF h path filename chunkSize chunkStride s
    = (Returned None,
       {| world := world s2; trace := trace s2 ++ [EvLog line3] |}).
Proof.
  intros Hr Hc. unfold processPDF. rewrite bind_run.
  pose proof (ReadPDF_state path s) as Hs.
  destruct (ReadPDF path s) as [r s0]. cbn [fst snd] in *. subst r s0.
  rewrite bind_run. cbn [log_Printf]. rewrite Hc, bind_run. cbn [log_Printf world trace].
  exists ("Extracted " +:+ itoa (Z.of_nat (String.length content))
          +:+ " characters from PDF"),
         ("Split PDF into " +:+ itoa (len chunks) +:+ " chunks (size: "
          +:+ itoa chunkSize +:+ " words, stride: " +:+ itoa chunkStride
          +:+ " words)"),
         ("Completed processing all " +:+ itoa (len chunks) +:+ " chunks").
  cbv zeta. rewrite bind_run.
  destruct (processPDF_loop _ _ _ _ _ _) as [[] s2]. reflexivity.
Qed.

Lemma processPDF_prompts h path filename chunkSize chunkStride (s : State)
    content chunks :
  (ReadPDF path s).1 = Ok content ->
  ChunkText content chunkSize chunkStride = Returned chunks ->
  (processPDF h path filename chunkSize chunkStride s).1 = Returned None
  /\ embedding_prompts
       (trace (processPDF h path filename chunkSize chunkStride s).2)
     = embedding_prompts (trace s) ++ chunks.
Proof.
  intros Hr Hc.
  destruct (processPDF_run h path filename chunkSize chunkStride s _ _ Hr Hc)
    as (l1 & l2 & l3 & Hrun).
  cbv zeta in Hrun. rewrite Hrun. cbn [fst snd trace]. split; [done|].
  destruct (processPDF_loop_prompts h filename (len chunks) chunks 0
              {| world := world s;
                 trace := (trace s ++ [EvLog l1]) ++ [EvLog l2] |})
    as (evs & Htr & Hevs).
  rewrite Htr. cbn [trace]. rewrite !embedding_prompts_app, Hevs. cbn.
  by rewrite !app_nil_r.
Qed.

Lemma processPDF_writes h path filename chunkSize chunkStride (s : State)
    content chunks :
  (ReadPDF path s).1 = Ok content ->
  ChunkText content chunkSize chunkStride = Returned chunks ->
  exists written,
    written_records
      (trace (processPDF h path filename chunkSize chunkStride s).2)
    = written_records (trace s) ++ written
    /\ written `sublist_of` all_records filename chunks.
Proof.
  intros Hr Hc.
  destruct (processPDF_run h path filename chunkSize chunkStride s _ _ Hr Hc)
    as (l1 & l2 & l3 & Hrun).
  cbv zeta in Hrun. rewrite Hrun. cbn [fst snd trace].
  destruct (processPDF_loop_writes h filename (len chunks) chunks 0 0
              {| world := world s;
                 trace := (trace s ++ [EvLog l1]) ++ [EvLog l2] |})
    as (evs & Htr & Hevs).
  rewrite Htr. cbn [trace]. rewrite !written_records_app. cbn.
  rewrite !app_nil_r. by eexists.
Qed.

End Ingestion.

(** * Ingestion against the simulated upstream *)

Section Simulated.

Variable fails : nat -> bool.

Lemma sim_getEmbedding h text (s : @State (SimEnv fails)) :
  (getEmbedding h text s).1
  = (if fails (sim_embed_calls (world s))
     then Err ("ollama returned status " +:+ itoa StatusInternalServerError
               +:+ ": " +:+ "model failed")
     else Ok [S754_zero false])
  /\ sim_collection (world (getEmbedding h text s).2) = sim_collection (world s)
  /\ sim_records (world (getEmbedding h text s).2) = sim_records (world s)
  /\ sim_embed_calls (world (getEmbedding h text s).2)
     = S (sim_embed_calls (world s)).
Proof.
  destruct s as [w tr]. unfold getEmbedding, http_Post, http_call.
  rewrite bind_run. cbn [world http_Do SimEnv sim_http rBody].
  unfold sim_embed. destruct (fails (sim_embed_calls w)); cbn; done.
Qed.

Lemma sim_getOrCreateCollection h name (s : @State (SimEnv fails)) :
  sim_ok (world s) ->
  let out := getOrCreateCollection h name s in
  (exists colID, out.1 = Ok colID)
  /\ sim_ok (world out.2)
  /\ (exists id, sim_collection (world out.2) = Some id)
  /\ sim_records (world out.2) = sim_records (world s)
  /\ sim_embed_calls (world out.2) = sim_embed_calls (world s).
Proof.
  destruct s as [w tr]. unfold sim_ok. cbn [world]. intros Hok.
  unfold getOrCreateCollection, http_Get, http_call.
  rewrite bind_run.
  cbn [world http_Do SimEnv sim_http rBody rMethod].
  change (String.eqb MethodGet MethodDelete) with false. cbv iota.
  destruct (sim_collection w) as [id|] eqn:Hcol.
  - change (StatusOK =? StatusOK) with true. cbv iota.
    cbn [decode_ID SimEnv]. unfold sim_decode.
    destruct (String.eqb_spec id "") as [->|_]; [done|].
    cbn. rewrite Hcol. eauto 10.
  - change (StatusNotFound =? StatusOK) with false. cbv iota.
    unfold createCollection, http_Post, http_call.
    rewrite bind_run. cbn.
    assert (Hne : forall x, String.eqb ("col-" +:+ x) "" = false) by done.
    unfold sim_decode. rewrite !Hne. cbn. rewrite ?Hcol.
    repeat split; eauto. intros Hid. specialize (Hne (itoa (Z.of_nat (sim_created w)))).
    rewrite Hid in Hne. done.
Qed.

Lemma sim_addToChroma h text embedding filename chunkNum (s : @State (SimEnv fails)) :
  sim_ok (world s) ->
  let out := addToChroma h text embedding filename chunkNum s in
  out.1 = None
  /\ sim_ok (world out.2)
  /\ sim_stored (world out.2)
     = sim_stored (world s) ++ [chunk_record filename chunkNum text]
  /\ sim_embed_calls (world out.2) = sim_embed_calls (world s).
Proof.
  intros Hok. cbv zeta. unfold addToChroma. rewrite bind_run.
  destruct (sim_getOrCreateCollection h (Collection (config h)) s Hok)
    as ([colID Hr] & Hok1 & [id Hcol] & Hrec & Hcalls).
  destruct (getOrCreateCollection h (Collection (config h)) s) as [r s1].
  cbn [fst snd] in *. subst r. destruct s1 as [w1 tr1]. cbn [world] in *.
  rewrite bind_run. unfold uuid_New_String.
  cbn [world uuid_New SimEnv]. rewrite bind_run.
  unfold http_Post, http_call.
  cbn [world http_Do SimEnv sim_http rBody sim_add sim_collection].
  unfold sim_add. cbn [sim_collection]. unfold sim_ok in *. rewrite Hcol in *.
  cbn. unfold sim_stored. cbn. rewrite ?Hcol, map_app, Hrec. cbn. done.
Qed.

Lemma sim_round h filename n i chunk (s : @State (SimEnv fails)) :
  sim_ok (world s) ->
  let w' := world (processPDF_round h filename n i chunk s).2 in
  sim_ok w'
  /\ sim_embed_calls w' = S (sim_embed_calls (world s))
  /\ sim_stored w'
     = sim_stored (world s)
       ++ (if fails (sim_embed_calls (world s)) then []
           else [chunk_record filename (i + 1) chunk]).
Proof.
  intros Hok. cbv zeta. unfold processPDF_round. rewrite bind_run.
  cbn [log_Printf]. rewrite bind_run.
  set (s0 := {| world := world s; trace := _ |}).
  destruct (sim_getEmbedding h chunk s0) as (Hr & Hcol & Hrec & Hcalls).
  destruct (getEmbedding h chunk s0) as [r s1]. subst s0.
  cbn [fst snd world] in *.
  assert (Hok1 : sim_ok (world s1)).
  { unfold sim_ok in *. by rewrite Hcol, Hrec. }
  assert (Hst : sim_stored (world s1) = sim_stored (world s)).
  { unfold sim_stored. by rewrite Hrec. }
  subst r. destruct (fails (sim_embed_calls (world s))).
  - cbn. by rewrite app_nil_r.
  - rewrite bind_run.
    destruct (sim_addToChroma h chunk [S754_zero false] filename (i + 1) s1 Hok1)
      as (He & Hok2 & Hst2 & Hcalls2).
    destruct (addToChroma h chunk [S754_zero false] filename (i + 1) s1)
      as [e s2].
    cbn [fst snd] in *. subst e. cbn. rewrite Hst2, Hst, Hcalls2. done.
Qed.

Lemma sim_loop h filename n : forall chunks i (s : @State (SimEnv fails)),
  sim_ok (world s) ->
  let w' := world (processPDF_loop h filename n i chunks s).2 in
  sim_ok w'
  /\ sim_stored w'
     = sim_stored (world s)
       ++ expected_records fails filename (sim_embed_calls (world s)) i chunks.
Proof.
  induction chunks as [|chunk rest IH]; intros i s Hok; cbv zeta;
    cbn [processPDF_loop expected_records].
  - cbn. by rewrite app_nil_r.
  - rewrite bind_run.
    destruct (sim_round h filename n i chunk s Hok) as (Hok1 & Hcalls & Hst).
    destruct (processPDF_round h filename n i chunk s) as [[] s1].
    cbn [snd] in *.
    destruct (IH (i + 1) s1 Hok1) as (Hok2 & Hst2).
    split; [done|]. rewrite Hst2, Hst, Hcalls, app_assoc. done.
Qed.

Lemma sim_processPDF h path filename chunkSize chunkStride (s : @State (SimEnv fails))
    content chunks :
  sim_files (world s) !! path = Some content ->
  sim_ok (world s) ->
  ChunkText content chunkSize chunkStride = Returned chunks ->
  let out := processPDF h path filename chunkSize chunkStride s in
  out.1 = Returned None
  /\ sim_stored (world out.2)
     = sim_stored (world s)
       ++ expected_records fails filename (sim_embed_calls (world s)) 0 chunks.
Proof.
  intros Hfile Hok Hc. cbv zeta.
  assert (Hr : (ReadPDF path s).1 = Ok content).
  { unfold ReadPDF. cbn. by rewrite Hfile. }
  destruct (processPDF_run h path filename chunkSize chunkStride s _ _ Hr Hc)
    as (l1 & l2 & l3 & Hrun).
  cbv zeta in Hrun. rewrite Hrun. cbn [fst snd world]. split; [done|].
  by destruct (sim_loop h filename (len chunks) chunks 0
                 {| world := world s;
                    trace := (trace s ++ [EvLog l1]) ++ [EvLog l2] |} Hok)
    as [_ ?].
Qed.

End Simulated.

(** C3: when the text was extracted, [processPDF] returns [nil] whatever
    the upstream does, sends one embedding request for each chunk, in
    order, and writes records of the chunks only, each at most once; it
    returns an error when the extraction failed.  A round whose
    embedding call fails logs a warning and sends nothing more, and a round
    whose store write fails logs a warning; the next round follows.  Against
    the simulated upstream, with three chunks of which only the second
    embedding call fails, the store ends with exactly the records of chunks
    1 and 3. *)
Theorem processPDF_partial_failure :
  (forall (E : Env) h path filename chunkSize chunkStride (s : State) content,
     (ReadPDF path s).1 = Ok content ->
     go_string content -> positive_int chunkSize -> positive_int chunkStride ->
     exists chunks written,
       ChunkText content chunkSize chunkStride = Returned chunks
       /\ (processPDF h path filename chunkSize chunkStride s).1
          = Returned None
       /\ embedding_prompts
            (trace (processPDF h path filename chunkSize chunkStride s).2)
          = embedding_prompts (trace s) ++ chunks
       /\ written_records
            (trace (processPDF h path filename chunkSize chunkStride s).2)
          = written_records (trace s) ++ written
       /\ written `sublist_of` all_records filename chunks)
  /\ (forall (E : Env) h path filename chunkSize chunkStride (s : State) err,
        (ReadPDF path s).1 = Err err ->
        processPDF h path filename chunkSize chunkStride s
        = (Returned (Some ("failed to read PDF: " +:+ err)), s))
  /\ (forall (E : Env) h filename n i chunk (s : State) err,
        (getEmbedding h chunk
           (log_Printf (round_start_line n i chunk) s).2).1 = Err err ->
        processPDF_round h filename n i chunk s
        = (tt, {| world := (http_Do (embedding_request h chunk) (world s)).2;
                  trace := trace s
                    ++ [EvLog (round_start_line n i chunk);
                        EvHttp (embedding_request h chunk)
                          (http_Do (embedding_request h chunk) (world s)).1;
                        EvLog (embedding_warning i err)] |}))
  /\ (forall (E : Env) h filename n i chunk (s : State) embedding err,
        let s1 := (getEmbedding h chunk
                     (log_Printf (round_start_line n i chunk) s).2).2 in
        (getEmbedding h chunk
           (log_Printf (round_start_line n i chunk) s).2).1 = Ok embedding ->
        (addToChroma h chunk embedding filename (i + 1) s1).1 = Some err ->
        processPDF_round h filename n i chunk s
        = log_Printf (store_warning i err)
            (addToChroma h chunk embedding filename (i + 1) s1).2)
  /\ (forall h path filename chunkSize chunkStride content c1 c2 c3
             (s : @State (SimEnv (fun k => Nat.eqb k 1))),
        sim_files (world s) !! path = Some content ->
        sim_ok (world s) -> sim_records (world s) = [] ->
        sim_embed_calls (world s) = 0%nat ->
        ChunkText content chunkSize chunkStride = Returned [c1; c2; c3] ->
        let out := @processPDF (SimEnv (fun k => Nat.eqb k 1))
                     h path filename chunkSize chunkStride s in
        out.1 = Returned None
        /\ sim_stored (world out.2)
           = [([c1], [chunk_metadata filename 1]);
              ([c3], [chunk_metadata filename 3])]).
Proof.
  split.
  { intros E h path filename chunkSize chunkStride s content Hr Hc Hsize Hstride.
    pose proof (ChunkText_windows content chunkSize chunkStride Hc Hsize Hstride)
      as Hchunks.
    destruct (processPDF_prompts h path filename chunkSize chunkStride s _ _
                Hr Hchunks) as [Hnil Hprompts].
    destruct (processPDF_writes h path filename chunkSize chunkStride s _ _
                Hr Hchunks) as (written & Hwritten & Hsub).
    by eexists _, written. }
  split; [intros; by apply processPDF_extraction_failure|].
  split; [intros; by apply processPDF_round_embedding_failure|].
  split; [intros; by apply processPDF_round_store_failure|].
  intros h path filename chunkSize chunkStride content c1 c2 c3 s
    Hfile Hok Hrec Hcalls Hc.
  destruct (sim_processPDF (fun k => Nat.eqb k 1) h path filename
              chunkSize chunkStride s content [c1; c2; c3] Hfile Hok Hc)
    as [Hr Hst].
  split; [done|]. rewrite Hst. unfold sim_stored at 1.
  rewrite Hrec, Hcalls. reflexivity.
Qed.

Lemma processPDF_partial_failure_witness :
  let out := @processPDF (SimEnv (fun k => Nat.eqb k 1)) test_handler
               "/tmp/x.pdf" "x.pdf" 1 1
               (sim_state _ (sim_start "/tmp/x.pdf" "one two three")) in
  out.1 = Returned None
  /\ sim_stored (world out.2)
     = [(["one"], [chunk_metadata "x.pdf" 1]);
        (["three"], [chunk_metadata "x.pdf" 3])].
Proof.
  apply (proj2 (proj2 (proj2 (proj2 processPDF_partial_failure)))
           test_handler "/tmp/x.pdf" "x.pdf" 1 1 "one two three"
           "one" "two" "three");
    by vm_compute.
Defined.

(** * The handlers *)

Section Handlers.

Context `{E : Env}.

(** C8: [HandleReset] takes a 404 from the delete as success, like a 200;
    every other status makes the request fail with a 500 that carries the
    body, and so does a transport error. *)
Theorem HandleReset_status (h : Handler) (r : Request) (s : State) :
  Method r = MethodPost \/ Method r = MethodGet ->
  http_NewRequest_error MethodDelete (rURL (delete_request h)) = None ->
  let resp := (http_Do (delete_request h) (world s)).1 in
  let out := (HandleReset h r s).1 in
  (forall body, resp = Response StatusNotFound body ->
     out = reset_successful h)
  /\ (forall body, resp = Response StatusOK body -> out = reset_successful h)
  /\ (forall code body, resp = Response code body ->
        code <> StatusOK -> code <> StatusNotFound ->
        out = http_Error ("chroma reset error: " +:+ body)
                StatusInternalServerError)
  /\ (forall err, resp = TransportError err ->
        out = http_Error ("failed to delete collection: " +:+ err)
                StatusInternalServerError).
Proof.
  intros Hmethod Hnew. cbv zeta. unfold HandleReset.
  assert (Hm : negb (String.eqb (Method r) MethodPost)
               && negb (String.eqb (Method r) MethodGet) = false).
  { destruct Hmethod as [-> | ->]; reflexivity. }
  rewrite Hm. rewrite bind_run. cbn [log_Printf].
  unfold delete_request in Hnew. cbn [rURL] in Hnew.
  rewrite Hnew. fold (delete_request h). rewrite bind_run. unfold http_call.
  cbn [world].
  destruct (http_Do (delete_request h) (world s)) as [resp w]. cbn [fst].
  destruct resp as [err|code body].
  - cbn. repeat split; intros; simplify_eq; done.
  - destruct (Z.eqb_spec code StatusOK) as [->|Hok];
      [|destruct (Z.eqb_spec code StatusNotFound) as [->|Hnf]];
      cbn; repeat split; intros; simplify_eq; done.
Qed.

End Handlers.

Lemma HandleReset_status_witness :
  (HandleReset test_handler {| Method := "POST"; query_q := "" |}
     (sim_state (fun _ => false)
        (sim_start "/tmp/x.pdf" "one two three"))).1
  = reset_successful test_handler.
Proof.
  refine (proj1 (@HandleReset_status (SimEnv (fun _ => false)) test_handler
                   {| Method := "POST"; query_q := "" |}
                   (sim_state (fun _ => false)
                      (sim_start "/tmp/x.pdf" "one two three")) _ _)
            "no such collection" _);
    [left; reflexivity | reflexivity | reflexivity].
Defined.

Example HandleReset_missing_collection :
  (HandleReset test_handler {| Method := "POST"; query_q := "" |}
     (sim_state (fun _ => false)
        (sim_start "/tmp/x.pdf" "one two three"))).1
  = reset_successful test_handler.
Proof. vm_compute. reflexivity. Qed.

Section Search.

Context `{E : Env}.

(** [queryChroma] returns the error of the provisioning, of the transport, of
    a status of 300 or more, or of the decoder; it returns results only
    when all four succeed. *)
Lemma queryChroma_result (h : Handler) (embedding : list float32) (s : State) :
  let c := getOrCreateCollection h (Collection (config h)) s in
  let r := (queryChroma h embedding s).1 in
  (forall err, c.1 = Err err -> r = Err err)
  /\ (forall colID, c.1 = Ok colID ->
      let resp := (http_Do (query_request h colID embedding) (world c.2)).1 in
      (forall err, resp = TransportError err -> r = Err err)
      /\ (forall code body, resp = Response code body -> 300 <= code ->
            r = Err ("chroma query returned status " +:+ itoa code +:+ ": "
                     +:+ body))
      /\ (forall code body err, resp = Response code body -> code < 300 ->
            decode_ChromaQueryResponse body = Err err -> r = Err err)
      /\ (forall code body res, resp = Response code body -> code < 300 ->
            decode_ChromaQueryResponse body = Ok res -> r = Ok res)).
Proof.
  cbv zeta. unfold queryChroma. rewrite bind_run.
  destruct (getOrCreateCollection h (Collection (config h)) s) as [c s1].
  cbn [fst snd]. destruct c as [colID|err].
  2:{ split; [by intros ? [= <-]|]. intros; simplify_eq. }
  split; [done|]. intros ? [= <-]. unfold http_Post.
  fold (query_request h colID embedding). rewrite bind_run. unfold http_call.
  destruct (http_Do (query_request h colID embedding) (world s1)) as [resp w].
  cbn [fst]. destruct resp as [err|code body].
  - cbn. repeat split; intros; simplify_eq; done.
  - destruct (Z.geb_spec code 300) as [Hge|Hlt].
    + cbn. repeat split; intros; simplify_eq; first [done|lia].
    + destruct (decode_ChromaQueryResponse body) as [res|err] eqn:Hdec; cbn;
        repeat split; intros; simplify_eq; first [done|lia|congruence].
Qed.

(** C9: when the embedding call or the query of the store fails,
    [HandleSearch] writes a 500 that carries the error, and it writes
    results only when both succeeded; the query fails on a provisioning
    error, a transport error, a status of 300 or more, or a body that does
    not decode. *)
Theorem HandleSearch_propagates (h : Handler) (r : Request) (s : State) :
  Method r = MethodGet -> query_q r <> "" ->
  let s0 := (log_Printf ("Searching for: " +:+ query_q r) s).2 in
  let e := getEmbedding h (query_q r) s0 in
  let out := (HandleSearch h r s).1 in
  (forall err, e.1 = Err err ->
     out = http_Error ("failed to get embedding: " +:+ err)
             StatusInternalServerError)
  /\ (forall embedding, e.1 = Ok embedding ->
      let q := queryChroma h embedding e.2 in
      let c := getOrCreateCollection h (Collection (config h)) e.2 in
      (forall err, q.1 = Err err ->
         out = http_Error ("failed to query chroma: " +:+ err)
                 StatusInternalServerError)
      /\ (forall results, q.1 = Ok results ->
            out = WroteJSON "application/json" (EncodedQueryResponse results))
      /\ (forall err, c.1 = Err err -> q.1 = Err err)
      /\ (forall colID, c.1 = Ok colID ->
          let resp :=
            (http_Do (query_request h colID embedding) (world c.2)).1 in
          (forall err, resp = TransportError err -> q.1 = Err err)
          /\ (forall code body, resp = Response code body -> 300 <= code ->
                q.1 = Err ("chroma query returned status " +:+ itoa code
                           +:+ ": " +:+ body))
          /\ (forall code body err, resp = Response code body -> code < 300 ->
                decode_ChromaQueryResponse body = Err err -> q.1 = Err err)
          /\ (forall code body res, resp = Response code body -> code < 300 ->
                decode_ChromaQueryResponse body = Ok res -> q.1 = Ok res))).
Proof.
  intros Hmethod Hq. cbv zeta. unfold HandleSearch.
  rewrite Hmethod. change (negb (String.eqb MethodGet MethodGet)) with false.
  cbv iota. destruct (String.eqb_spec (query_q r) "") as [Hempty|_]; [done|].
  rewrite bind_run. cbn [log_Printf snd]. rewrite bind_run.
  destruct (getEmbedding h (query_q r) _) as [e s1]. cbn [fst snd].
  destruct e as [embedding|err].
  2:{ split; [by intros ? [= <-]|]. intros; simplify_eq. }
  split; [done|]. intros ? [= <-]. rewrite bind_run.
  pose proof (queryChroma_result h embedding s1) as Hquery.
  cbv zeta in Hquery.
  destruct (queryChroma h embedding s1) as [q s2]. cbn [fst snd] in *.
  destruct q as [results|err]; cbn;
    (split; [intros; simplify_eq; done|]);
    (split; [intros; simplify_eq; done|]); exact Hquery.
Qed.

End Search.

Lemma HandleSearch_propagates_witness :
  (HandleSearch test_handler {| Method := "GET"; query_q := "cats" |}
     (sim_state (fun _ => true) (sim_start "/tmp/x.pdf" "one two three"))).1
  = http_Error
      "failed to get embedding: ollama returned status 500: model failed"
      StatusInternalServerError.
Proof.
  refine (proj1 (@HandleSearch_propagates (SimEnv (fun _ => true))
                   test_handler {| Method := "GET"; query_q := "cats" |}
                   (sim_state (fun _ => true)
                      (sim_start "/tmp/x.pdf" "one two three"))
                   eq_refl _) _ _); [discriminate | reflexivity].
Defined.

Example HandleSearch_store_down :
  (@HandleSearch StoreDownEnv test_handler
     {| Method := "GET"; query_q := "cats" |}
     (@Build_State StoreDownEnv (sim_start "/tmp/x.pdf" "one two three") [])).1
  = http_Error
      ("failed to query chroma: failed to POST to "
       +:+ "http://localhost:8000"
       +:+ "/api/v2/tenants/default_tenant/databases/default_database/collections"
       +:+ ": connection refused")
      StatusInternalServerError.
Proof. vm_compute. reflexivity. Qed.

Example HandleSearch_sim_ok :
  exists results,
    (HandleSearch test_handler {| Method := "GET"; query_q := "cats" |}
       (sim_state (fun _ => false)
          (sim_start "/tmp/x.pdf" "one two three"))).1
    = WroteJSON "application/json" (EncodedQueryResponse results).
Proof. eexists. vm_compute. reflexivity. Qed.

(** ** The clients against the simulated upstream *)

Example getEmbedding_sim_ok :
  (getEmbedding test_handler "cats"
     (sim_state (fun _ => false) (sim_start "/tmp/x.pdf" "one"))).1
  = Ok [S754_zero false].
Proof. vm_compute. reflexivity. Qed.

Example getEmbedding_sim_failure :
  (getEmbedding test_handler "cats"
     (sim_state (fun _ => true) (sim_start "/tmp/x.pdf" "one"))).1
  = Err "ollama returned status 500: model failed".
Proof. vm_compute. reflexivity. Qed.

(** The first call creates the collection, the second finds it. *)
Example getOrCreateCollection_sim_twice :
  let s0 := sim_state (fun _ => false) (sim_start "/tmp/x.pdf" "one") in
  let first := getOrCreateCollection test_handler "documents" s0 in
  let second := getOrCreateCollection test_handler "documents" first.2 in
  first.1 = Ok "col-0" /\ second.1 = Ok "col-0"
  /\ length (trace first.2) = 2%nat /\ length (trace second.2) = 3%nat.
Proof. vm_compute. done. Qed.

(** [strings.Fields] splits at a no-break space, U+00A0, two bytes in UTF-8. *)
Example Fields_no_break_space :
  Fields (String "a" (String (ascii_of_N 0xC2) (String (ascii_of_N 0xA0)
            (String "b" EmptyString))))
  = ["a"; "b"].
Proof. vm_compute. reflexivity. Qed.

(** * More about [ChunkText]

    What [ChunkText] does on every size and stride, and what its chunks look
    like. *)

Section Outcomes.

Variable words : list string.
Variables size stride : Z.
Hypothesis Hsize : GoInt.in_range size.
Hypothesis Hstride : GoInt.in_range stride.
Hypothesis Hlen : 0 < len words <= 2 ^ 62.

(** The first round, when the window ends before the last word. *)
Lemma ChunkText_loop_first fuel chunks :
  0 <= size < len words ->
  ChunkText_loop (S fuel) words size stride 0 chunks
  = ChunkText_loop fuel words size stride stride
      (chunks ++ [Join (take (Z.to_nat size) words) " "]).
Proof.
  intros Hin. cbn [ChunkText_loop].
  destruct (Z.ltb_spec 0 (len words)) as [_|?]; [|lia]. cbn [negb].
  rewrite add_in_range by done. rewrite Z.add_0_l.
  destruct (Z.gtb_spec size (len words)) as [?|_]; [lia|].
  unfold slice.
  replace ((0 <=? 0) && (0 <=? size) && (size <=? len words)) with true
    by (symmetry; rewrite !andb_true_iff, !Z.leb_le; lia).
  destruct (Z.eqb_spec size (len words)) as [?|_]; [lia|].
  rewrite (add_in_range 0 stride) by done.
  by rewrite Z.add_0_l, Z.sub_0_r, drop_0.
Qed.

Lemma ChunkText_loop_whole fuel chunks :
  len words <= size ->
  ChunkText_loop (S fuel) words size stride 0 chunks
  = Returned (chunks ++ [Join words " "]).
Proof.
  intros Hbig. cbn [ChunkText_loop].
  destruct (Z.ltb_spec 0 (len words)) as [_|?]; [|lia]. cbn [negb].
  rewrite add_in_range by done. rewrite Z.add_0_l.
  assert (Hend : (if size >? len words then len words else size) = len words).
  { destruct (Z.gtb_spec size (len words)); lia. }
  rewrite Hend. unfold slice.
  replace ((0 <=? 0) && (0 <=? len words) && (len words <=? len words))
    with true by (symmetry; rewrite !andb_true_iff, !Z.leb_le; lia).
  rewrite Z.eqb_refl, Z.sub_0_r, drop_0.
  rewrite take_ge by (unfold len; lia). done.
Qed.

Lemma ChunkText_loop_backwards fuel chunks :
  0 <= size < len words -> stride < 0 ->
  ChunkText_loop (S (S fuel)) words size stride 0 chunks = Panicked.
Proof.
  intros Hin Hneg. rewrite ChunkText_loop_first by done.
  cbn [ChunkText_loop].
  destruct (Z.ltb_spec stride (len words)) as [_|?]; [|lia]. cbn [negb].
  unfold slice. destruct (Z.leb_spec 0 stride) as [?|_]; [lia|]. done.
Qed.

Lemma ChunkText_loop_stuck fuel : forall chunks,
  0 <= size < len words -> stride = 0 ->
  ChunkText_loop fuel words size stride 0 chunks = OutOfFuel.
Proof.
  induction fuel as [|fuel IH]; intros chunks Hin Hz; [done|].
  rewrite ChunkText_loop_first by done. rewrite Hz at 2. by apply IH.
Qed.

Lemma ChunkText_loop_empty_windows fuel : forall i chunks,
  size = 0 -> 0 < stride ->
  0 <= i -> i = 0 \/ stride <= i ->
  1 + Z.max 0 (len words - i) <= Z.of_nat fuel ->
  ChunkText_loop fuel words size stride i chunks
  = Returned (chunks ++ replicate
                (Z.to_nat (cdiv (Z.max 0 (len words - i)) stride)) "").
Proof.
  unfold GoInt.in_range, GoInt.MinInt, GoInt.MaxInt in *.
  induction fuel as [|fuel IH]; intros i chunks Hz Hpos Hi Hinv Hfuel; [lia|].
  cbn [ChunkText_loop].
  destruct (Z.ltb_spec i (len words)) as [Hlt|Hge]; cbn [negb].
  2:{ rewrite Z.max_l by lia. rewrite cdiv_zero by done. cbn.
      by rewrite app_nil_r. }
  assert (Hadd : GoInt.add i size = i).
  { rewrite add_in_range; unfold GoInt.in_range, GoInt.MinInt, GoInt.MaxInt; lia. }
  rewrite Hadd.
  destruct (Z.gtb_spec i (len words)) as [?|_]; [lia|].
  unfold slice.
  replace ((0 <=? i) && (i <=? i) && (i <=? len words)) with true
    by (symmetry; rewrite !andb_true_iff, !Z.leb_le; lia).
  destruct (Z.eqb_spec i (len words)) as [?|_]; [lia|].
  assert (Hstep : GoInt.add i stride = i + stride).
  { apply add_in_range. unfold GoInt.in_range, GoInt.MinInt, GoInt.MaxInt. lia. }
  rewrite Hstep, IH by lia.
  rewrite Z.sub_diag. cbn [Z.to_nat take Join]. rewrite <- app_assoc.
  do 2 f_equal. rewrite (Z.max_r 0 (len words - i)) by lia.
  assert (Hcount : cdiv (len words - i) stride
                   = 1 + cdiv (Z.max 0 (len words - (i + stride))) stride).
  { destruct (Z.le_gt_cases (len words - (i + stride)) 0).
    - rewrite Z.max_l by lia. rewrite cdiv_zero, cdiv_small by lia. done.
    - rewrite Z.max_r by lia.
      replace (len words - i) with (len words - (i + stride) + stride) by lia.
      rewrite cdiv_add by lia. lia. }
  rewrite Hcount.
  assert (0 <= cdiv (Z.max 0 (len words - (i + stride))) stride).
  { unfold cdiv. apply Z.div_pos; lia. }
  rewrite Z2Nat.inj_add by lia. reflexivity.
Qed.

End Outcomes.

(** [ChunkText] on a text with words is its loop from index 0. *)
Lemma ChunkText_loop_eq text size stride :
  0 < len (Fields text) ->
  ChunkText text size stride
  = ChunkText_loop (S (length (Fields text))) (Fields text) size stride 0 [].
Proof.
  intros Hpos. unfold ChunkText, ChunkText_fuel.
  destruct (Z.eqb_spec (len (Fields text)) 0); [lia|done].
Qed.

(** What [ChunkText] does for every size and stride, on a text with words. *)
Lemma ChunkText_cases text size stride :
  go_string text -> GoInt.in_range size -> GoInt.in_range stride ->
  0 < len (Fields text) ->
  (size < 0 /\ ChunkText text size stride = Panicked)
  \/ (len (Fields text) <= size
      /\ ChunkText text size stride = Returned [Join (Fields text) " "])
  \/ (0 <= size < len (Fields text) /\ stride < 0
      /\ ChunkText text size stride = Panicked)
  \/ (0 <= size < len (Fields text) /\ stride = 0
      /\ forall fuel, ChunkText_fuel fuel text size stride = OutOfFuel)
  \/ (0 <= size < len (Fields text) /\ 0 < stride
      /\ exists chunks, ChunkText text size stride = Returned chunks).
Proof.
  intros Htext Hsize Hstride Hpos.
  pose proof (Fields_len_bound _ Htext) as Hlen.
  assert (Hwords : 0 < len (Fields text) <= 2 ^ 62) by lia.
  rewrite !ChunkText_loop_eq by done.
  destruct (Z.lt_ge_cases size 0) as [Hneg|Hnn].
  { left. split; [done|]. by apply ChunkText_loop_negative_size. }
  right. destruct (Z.le_gt_cases (len (Fields text)) size) as [Hbig|Hsmall].
  { left. split; [done|]. by apply ChunkText_loop_whole. }
  right. destruct (Z.lt_trichotomy stride 0) as [Hsneg|[Hzero|Hspos]].
  - left. split; [done|]. split; [done|].
    destruct (length (Fields text)) as [|n] eqn:Hn; [unfold len in *; lia|].
    by apply ChunkText_loop_backwards.
  - right. left. split; [done|]. split; [done|]. intros fuel.
    unfold ChunkText_fuel.
    destruct (Z.eqb_spec (len (Fields text)) 0); [lia|].
    by apply ChunkText_loop_stuck.
  - right. right. split; [done|]. split; [done|].
    destruct (Z.eq_dec size 0) as [Hz|Hnz].
    + eexists. apply ChunkText_loop_empty_windows;
        [done|done|done|done|done|by left|unfold len in *; lia].
    + rewrite <- ChunkText_loop_eq by done. eexists.
      apply ChunkText_windows; [done|..];
        unfold positive_int, GoInt.in_range in *; lia.
Qed.

(** X1: on a text with at least one word, [ChunkText] panics exactly when
    the size is negative, or the stride is negative and the size is below
    the number of words. *)
Theorem ChunkText_panics text size stride :
  go_string text -> GoInt.in_range size -> GoInt.in_range stride ->
  0 < len (Fields text) ->
  ChunkText text size stride = Panicked
  <-> size < 0 \/ (stride < 0 /\ size < len (Fields text)).
Proof.
  intros Htext Hsize Hstride Hpos.
  destruct (ChunkText_cases text size stride Htext Hsize Hstride Hpos)
    as [[? Hr]|[[? Hr]|[(? & ? & Hr)|[(? & ? & Hr)|(? & ? & [c Hr])]]]].
  - split; [by left|done].
  - rewrite Hr. split; [done|]. intros [?|[? ?]]; lia.
  - split; [|done]. intros _. right. lia.
  - specialize (Hr (S (length (Fields text)))).
    unfold ChunkText. rewrite Hr. split; [done|]. intros [?|[? ?]]; lia.
  - rewrite Hr. split; [done|]. intros [?|[? ?]]; lia.
Qed.

Lemma ChunkText_panics_witness :
  ChunkText "a b c" (-1) 1 = Panicked
  <-> -1 < 0 \/ (1 < 0 /\ -1 < len (Fields "a b c")).
Proof.
  apply (ChunkText_panics "a b c" (-1) 1);
    first [solve_wf | unfold GoInt.in_range, GoInt.MinInt, GoInt.MaxInt; lia
          | by vm_compute].
Defined.

(** X2: [ChunkText] does not return, whatever the fuel, exactly when the
    stride is 0 and the size is at least 0 and below the number of words. *)
Theorem ChunkText_diverges text size stride :
  go_string text -> GoInt.in_range size -> GoInt.in_range stride ->
  (forall fuel, ChunkText_fuel fuel text size stride = OutOfFuel)
  <-> stride = 0 /\ 0 <= size < len (Fields text).
Proof.
  intros Htext Hsize Hstride.
  destruct (Z.eq_dec (len (Fields text)) 0) as [Hz|Hnz].
  { split.
    - intros Hout. specialize (Hout 0%nat). unfold ChunkText_fuel in Hout.
      by rewrite Hz in Hout.
    - lia. }
  assert (Hpos : 0 < len (Fields text)) by (unfold len in *; lia).
  destruct (ChunkText_cases text size stride Htext Hsize Hstride Hpos)
    as [[? Hr]|[[? Hr]|[(? & ? & Hr)|[(? & ? & Hr)|(? & ? & [c Hr])]]]].
  4:{ split; [done|by intros _]. }
  all: split; [|lia]; intros Hout;
    specialize (Hout (S (length (Fields text))));
    unfold ChunkText in Hr; by rewrite Hr in Hout.
Qed.

Lemma ChunkText_diverges_witness :
  (forall fuel, ChunkText_fuel fuel "a b c" 2 0 = OutOfFuel)
  <-> 0 = 0 /\ 0 <= 2 < len (Fields "a b c").
Proof.
  apply (ChunkText_diverges "a b c" 2 0);
    first [solve_wf | unfold GoInt.in_range, GoInt.MinInt, GoInt.MaxInt; lia].
Defined.

(** X3: when the size is at least the number of words, [ChunkText] returns
    the words joined as its one chunk, for every stride, also 0 or
    negative. *)
Theorem ChunkText_whole text size stride :
  go_string text -> GoInt.in_range size -> GoInt.in_range stride ->
  0 < len (Fields text) -> len (Fields text) <= size ->
  ChunkText text size stride = Returned [Join (Fields text) " "].
Proof.
  intros Htext Hsize Hstride Hpos Hbig.
  pose proof (Fields_len_bound _ Htext) as Hlen.
  rewrite ChunkText_loop_eq by done. by apply ChunkText_loop_whole.
Qed.

Lemma ChunkText_whole_witness :
  ChunkText "  a  b c " 3 (-7) = Returned [Join (Fields "  a  b c ") " "].
Proof.
  apply (ChunkText_whole "  a  b c " 3 (-7));
    first [solve_wf | unfold GoInt.in_range, GoInt.MinInt, GoInt.MaxInt; lia
          | by vm_compute].
Defined.

(** X4: with size 0 and a positive stride, [ChunkText] returns empty
    chunks, one for each start index below the number of words. *)
Theorem ChunkText_size_zero text stride :
  go_string text -> positive_int stride ->
  ChunkText text 0 stride
  = Returned (replicate (Z.to_nat (cdiv (len (Fields text)) stride)) "").
Proof.
  intros Htext [Hpos Hmax].
  pose proof (Fields_len_bound _ Htext) as Hlen.
  destruct (Z.eq_dec (len (Fields text)) 0) as [Hz|Hnz].
  { unfold ChunkText, ChunkText_fuel. rewrite Hz. cbn.
    by rewrite cdiv_zero. }
  assert (Hwords : 0 < len (Fields text) <= 2 ^ 62) by (unfold len in *; lia).
  rewrite ChunkText_loop_eq by lia.
  rewrite (ChunkText_loop_empty_windows (Fields text) 0 stride);
    [|unfold GoInt.in_range, GoInt.MinInt, GoInt.MaxInt in *; lia
     |done|done|done|done|by left|unfold len in *; lia].
  rewrite Z.sub_0_r, Z.max_r by lia. done.
Qed.

Lemma ChunkText_size_zero_witness :
  ChunkText "a b c d e" 0 2
  = Returned (replicate (Z.to_nat (cdiv (len (Fields "a b c d e")) 2)) "").
Proof. apply (ChunkText_size_zero "a b c d e" 2); solve_wf. Defined.

(** ** The shape of the chunks *)

Lemma Join_not_empty ws :
  ws <> [] -> Forall (fun w => is_word w = true) ws -> Join ws " " <> "".
Proof.
  intros Hne Hws. destruct Hws as [|w ws Hw Hws]; [done|].
  apply andb_true_iff in Hw as [Hw _].
  destruct w as [|c w]; [done|]. by destruct ws.
Qed.

(** The words of the [k]-th window. *)
Lemma spans_of_window text size stride k a b :
  0 < size -> 0 < stride ->
  spans_of text size stride !! k = Some (a, b) ->
  window (Fields text) (a, b)
  = take (Z.to_nat size) (drop (k * Z.to_nat stride) (Fields text))
  /\ window (Fields text) (a, b) <> [].
Proof.
  intros Hsize Hstride Hk.
  destruct (spans_of_bounds _ _ _ _ _ _ Hsize Hstride Hk)
    as (Ha & Ha0 & Hab & Hb & Hsz).
  apply windows_lookup in Hk as (_ & Hmin & Hlt); [|done].
  unfold window. cbn [fst snd].
  replace (Z.to_nat a) with (k * Z.to_nat stride)%nat by nia.
  split.
  - destruct (Z.le_gt_cases (a + size) (len (Fields text))).
    + do 2 f_equal. lia.
    + rewrite !take_ge; [done|rewrite length_drop; unfold len in *; nia..].
  - intros Hnil. apply (f_equal length) in Hnil.
    rewrite length_take, length_drop in Hnil. cbn in Hnil.
    unfold len in *. nia.
Qed.

(** X5: every chunk [ChunkText] returns is not empty, and is its own words
    joined by single spaces: it has no leading, trailing or doubled white
    space. *)
Theorem ChunkText_chunks_clean text size stride :
  go_string text -> positive_int size -> positive_int stride ->
  exists chunks,
    ChunkText text size stride = Returned chunks
    /\ Forall (fun c => c <> "" /\ Join (Fields c) " " = c
                        /\ Forall (fun w => is_word w = true) (Fields c))
         chunks.
Proof.
  intros Htext Hsize Hstride. eexists. split; [by apply ChunkText_windows|].
  apply Forall_lookup. intros k c Hk.
  apply chunks_lookup in Hk as (a & b & Hk & ->).
  destruct Hsize as [Hsize _], Hstride as [Hstride _].
  destruct (spans_of_window _ _ _ _ _ _ Hsize Hstride Hk) as [_ Hne].
  rewrite Fields_chunk_of. split; [|split; [done|]].
  - apply Join_not_empty; [done|].
    unfold window. apply Forall_take, Forall_drop, Fields_words.
  - unfold window. apply Forall_take, Forall_drop, Fields_words.
Qed.

Lemma ChunkText_chunks_clean_witness :
  exists chunks,
    ChunkText "  a	b  c " 2 1 = Returned chunks
    /\ Forall (fun c => c <> "" /\ Join (Fields c) " " = c
                        /\ Forall (fun w => is_word w = true) (Fields c))
         chunks.
Proof. apply (ChunkText_chunks_clean "  a	b  c " 2 1); solve_wf. Defined.

(** X6: the [k]-th chunk is the words from index [k * stride] on, [size] of
    them or as many as are left, joined by single spaces. *)
Theorem ChunkText_chunk_at text size stride :
  go_string text -> positive_int size -> positive_int stride ->
  exists chunks,
    ChunkText text size stride = Returned chunks
    /\ forall k c, chunks !! k = Some c ->
         c = Join (take (Z.to_nat size)
                     (drop (k * Z.to_nat stride) (Fields text))) " "
         /\ (k * Z.to_nat stride < length (Fields text))%nat.
Proof.
  intros Htext Hsize Hstride. eexists. split; [by apply ChunkText_windows|].
  intros k c Hk. apply chunks_lookup in Hk as (a & b & Hk & ->).
  destruct Hsize as [Hsize _], Hstride as [Hstride _].
  destruct (spans_of_window _ _ _ _ _ _ Hsize Hstride Hk) as [Hw _].
  unfold chunk_of. rewrite Hw. split; [done|].
  apply windows_lookup in Hk as (Ha & _ & Hlt); [|done].
  unfold len in *. nia.
Qed.

Lemma ChunkText_chunk_at_witness :
  exists chunks,
    ChunkText "a b c d e f g" 3 2 = Returned chunks
    /\ forall k c, chunks !! k = Some c ->
         c = Join (take (Z.to_nat 3)
                     (drop (k * Z.to_nat 2) (Fields "a b c d e f g"))) " "
         /\ (k * Z.to_nat 2 < length (Fields "a b c d e f g"))%nat.
Proof. apply (ChunkText_chunk_at "a b c d e f g" 3 2); solve_wf. Defined.

(** With the stride equal to the size the windows tile the words. *)
Lemma windows_tile (words : list string) size fuel : forall i,
  0 < size -> 0 <= i ->
  1 + Z.max 0 (len words - i - size) <= Z.of_nat fuel ->
  concat (map (window words) (windows fuel (len words) size size i))
  = drop (Z.to_nat i) words.
Proof.
  induction fuel as [|fuel IH]; intros i Hsize Hi Hfuel; [lia|].
  cbn [windows].
  destruct (Z.ltb_spec i (len words)) as [Hlt|Hge]; cbn [negb].
  2:{ cbn. rewrite drop_ge; [done|unfold len in *; lia]. }
  cbn [map concat]. unfold window at 1. cbn [fst snd].
  destruct (Z.eqb_spec (Z.min (i + size) (len words)) (len words)) as [He|He].
  - cbn. rewrite app_nil_r, take_ge; [done|].
    rewrite length_drop. unfold len in *. lia.
  - rewrite IH by lia. rewrite Z.min_l by lia.
    replace (i + size - i) with size by lia.
    replace (Z.to_nat (i + size)) with (Z.to_nat i + Z.to_nat size)%nat by lia.
    rewrite <- drop_drop. apply take_drop.
Qed.

(** X7: when the stride equals the size, the words of the chunks, one chunk
    after the other, are the words of the text: none is lost and none
    repeated. *)
Theorem ChunkText_tiles text size :
  go_string text -> positive_int size ->
  exists chunks,
    ChunkText text size size = Returned chunks
    /\ concat (map Fields chunks) = Fields text.
Proof.
  intros Htext Hsize. eexists. split; [by apply ChunkText_windows|].
  rewrite map_map.
  rewrite (map_ext _ (window (Fields text)))
    by (intros span; apply Fields_chunk_of).
  unfold spans_of. destruct Hsize as [Hsize _].
  destruct (Nat.eq_dec (length (Fields text)) 0%nat) as [Hz|Hnz].
  { rewrite Hz. by destruct (Fields text). }
  rewrite windows_tile; [done|done|done|unfold len; lia].
Qed.

Lemma ChunkText_tiles_witness :
  exists chunks,
    ChunkText "a b c d e f g h i j k l" 5 5 = Returned chunks
    /\ concat (map Fields chunks) = Fields "a b c d e f g h i j k l".
Proof. apply (ChunkText_tiles "a b c d e f g h i j k l" 5); solve_wf. Defined.

(** X8: when the stride is larger than the size and there are more than
    [size] words, the word at index [size] is in no window: the chunks
    leave words out. *)
Theorem ChunkText_gap text size stride :
  go_string text -> positive_int size -> positive_int stride ->
  size < stride -> size < len (Fields text) ->
  exists spans,
    ChunkText_spans text size stride = Returned spans
    /\ ChunkText text size stride
       = Returned (map (chunk_of (Fields text)) spans)
    /\ is_Some (Fields text !! Z.to_nat size)
    /\ forall k a b, spans !! k = Some (a, b) -> ~ (a <= size < b).
Proof.
  intros Htext Hsize Hstride Hgap Hmore. eexists.
  split; [by apply ChunkText_spans_windows|].
  split; [by apply ChunkText_windows|]. split.
  { apply lookup_lt_is_Some. destruct Hsize. unfold len in *. lia. }
  intros k a b Hk. destruct Hsize as [Hsize _], Hstride as [Hstride _].
  apply windows_lookup in Hk as (Ha & Hb & _); [|done].
  destruct k as [|k]; [lia|nia].
Qed.

Lemma ChunkText_gap_witness :
  exists spans,
    ChunkText_spans "a b c d e f g h i j" 2 5 = Returned spans
    /\ ChunkText "a b c d e f g h i j" 2 5
       = Returned (map (chunk_of (Fields "a b c d e f g h i j")) spans)
    /\ is_Some (Fields "a b c d e f g h i j" !! Z.to_nat 2)
    /\ forall k a b, spans !! k = Some (a, b) -> ~ (a <= 2 < b).
Proof.
  apply (ChunkText_gap "a b c d e f g h i j" 2 5); first [solve_wf|by vm_compute].
Defined.

(** * More about the pipeline *)

(** ** Configuration *)

Lemma getEnv_not_empty env key defaultValue :
  defaultValue <> "" -> getEnv env key defaultValue <> "".
Proof.
  intros Hd. unfold getEnv.
  by destruct (String.eqb_spec (os_Getenv env key) "").
Qed.

Lemma getEnv_empty_unset env k key defaultValue :
  getEnv (<[k := ""]> env) key defaultValue
  = getEnv (delete k env) key defaultValue.
Proof.
  unfold getEnv, os_Getenv. destruct (decide (k = key)) as [->|Hne].
  - by rewrite lookup_insert_eq, lookup_delete_eq.
  - by rewrite lookup_insert_ne, lookup_delete_ne.
Qed.

(** X9: whatever the environment holds, no field of the configuration of
    [NewHandler] is empty, and a variable set to the empty string counts as
    not set. *)
Theorem NewHandler_config (env : gmap string string) :
  (OllamaURL (config (NewHandler env)) <> ""
   /\ ChromaURL (config (NewHandler env)) <> ""
   /\ ChromaAPIBase (config (NewHandler env)) <> ""
   /\ DefaultModel (config (NewHandler env)) <> ""
   /\ Collection (config (NewHandler env)) <> "")
  /\ (forall k, NewHandler (<[k := ""]> env) = NewHandler (delete k env))
  /\ (forall key value defaultValue,
        env !! key = Some value -> value <> "" ->
        getEnv env key defaultValue = value).
Proof.
  split; [|split].
  - cbn [NewHandler config OllamaURL ChromaURL ChromaAPIBase DefaultModel
           Collection].
    repeat split; try (by apply getEnv_not_empty). done.
  - intros k. unfold NewHandler. by rewrite !getEnv_empty_unset.
  - intros key value d Hkey Hne. unfold getEnv, os_Getenv. rewrite Hkey.
    by destruct (String.eqb_spec value "").
Qed.

Example NewHandler_defaults : NewHandler ∅ = test_handler.
Proof. vm_compute. reflexivity. Qed.

(** ** Counting the requests *)

Section Requests.

Context `{E : Env}.

Lemma http_requests_app tr1 tr2 :
  http_requests (tr1 ++ tr2) = http_requests tr1 ++ http_requests tr2.
Proof. apply omap_app. Qed.

Lemma calls_app a b c d e1 e2 :
  calls a b e1 -> calls c d e2 -> calls (a + c) (b + d) (e1 ++ e2).
Proof.
  unfold calls. rewrite http_requests_app, length_app. lia.
Qed.

Lemma calls_bind {A B} (m : M A) (f : A -> M B) a b c d :
  emits m (calls a b) -> (forall x, emits (f x) (calls c d)) ->
  emits (m ≫= f) (calls (a + c) (b + d)).
Proof.
  intros Hm Hf. eapply emits_bind; [exact Hm|exact Hf|]. apply calls_app.
Qed.

Lemma calls_weaken {A} (m : M A) a b a' b' :
  emits m (calls a b) -> (a' <= a)%nat -> (b <= b')%nat ->
  emits m (calls a' b').
Proof.
  intros Hm Ha Hb. eapply emits_weaken; [exact Hm|].
  unfold calls. intros e. lia.
Qed.

Lemma calls_ret {A} (x : A) : emits (mret x) (calls 0 0).
Proof. apply emits_ret. unfold calls. cbn. lia. Qed.

Lemma calls_log msg : emits (log_Printf msg) (calls 0 0).
Proof.
  eapply emits_weaken; [apply emits_log|]. intros e ->. unfold calls. cbn. lia.
Qed.

Lemma calls_uuid : emits uuid_New_String (calls 0 0).
Proof.
  eapply emits_weaken; [apply emits_uuid|]. intros e ->. unfold calls. cbn. lia.
Qed.

Lemma calls_http req : emits (http_call req) (calls 1 1).
Proof.
  eapply emits_weaken; [apply emits_http|]. intros e [res ->].
  unfold calls. cbn. lia.
Qed.

(** Two facts about what a computation emits hold together. *)
Lemma emits_and {A} (m : M A) (P Q : list Event -> Prop) :
  emits m P -> emits m Q -> emits m (fun evs => P evs /\ Q evs).
Proof.
  intros HP HQ s. destruct (HP s) as (e1 & H1 & ?), (HQ s) as (e2 & H2 & ?).
  exists e1. split; [done|]. split; [done|].
  rewrite H1 in H2. apply app_inv_head in H2. by subst.
Qed.

Lemma createCollection_calls h name :
  emits (createCollection h name) (calls 1 1).
Proof.
  unfold createCollection, http_Post.
  apply (calls_bind _ _ 1 1 0 0); [apply calls_http|].
  intros resp. destruct resp as [err|code body]; [apply calls_ret|].
  destruct (_ && _); [apply calls_ret|].
  destruct (unmarshal_ID body) as [ID|err]; [|apply calls_ret].
  destruct (String.eqb ID ""); apply calls_ret.
Qed.

Lemma getOrCreateCollection_calls h name :
  emits (getOrCreateCollection h name) (calls 1 2).
Proof.
  unfold getOrCreateCollection, http_Get.
  apply (calls_bind _ _ 1 1 0 1); [apply calls_http|].
  intros resp.
  destruct resp as [err|code body];
    [eapply calls_weaken; [apply createCollection_calls|lia..]|].
  destruct (code =? StatusOK);
    [|eapply calls_weaken; [apply createCollection_calls|lia..]].
  destruct (decode_ID body);
    (eapply calls_weaken; [apply calls_ret|lia..]).
Qed.

Lemma getEmbedding_calls h text : emits (getEmbedding h text) (calls 1 1).
Proof.
  unfold getEmbedding, http_Post.
  apply (calls_bind _ _ 1 1 0 0); [apply calls_http|].
  intros resp. destruct resp as [err|code body]; [apply calls_ret|].
  destruct (negb _); [apply calls_ret|].
  destruct (decode_EmbeddingResponse body); apply calls_ret.
Qed.

Lemma addToChroma_calls h text embedding filename chunkNum :
  emits (addToChroma h text embedding filename chunkNum) (calls 1 3).
Proof.
  unfold addToChroma.
  apply (calls_bind _ _ 1 2 0 1); [apply getOrCreateCollection_calls|].
  intros r. destruct r as [colID|err];
    [|eapply calls_weaken; [apply calls_ret|lia..]].
  apply (calls_bind _ _ 0 0 0 1); [apply calls_uuid|]. intros id.
  unfold http_Post.
  eapply calls_weaken;
    [apply (calls_bind _ _ 1 1 0 0); [apply calls_http|]|lia..].
  intros resp. destruct resp as [err|code body]; [apply calls_ret|].
  destruct (code >=? 300); apply calls_ret.
Qed.

Lemma queryChroma_calls h embedding :
  emits (queryChroma h embedding) (calls 1 3).
Proof.
  unfold queryChroma.
  apply (calls_bind _ _ 1 2 0 1); [apply getOrCreateCollection_calls|].
  intros r. destruct r as [colID|err];
    [|eapply calls_weaken; [apply calls_ret|lia..]].
  unfold http_Post.
  eapply calls_weaken;
    [apply (calls_bind _ _ 1 1 0 0); [apply calls_http|]|lia..].
  intros resp. destruct resp as [err|code body]; [apply calls_ret|].
  destruct (code >=? 300); [apply calls_ret|].
  destruct (decode_ChromaQueryResponse body); apply calls_ret.
Qed.

Lemma processPDF_round_calls h filename n i chunk :
  emits (processPDF_round h filename n i chunk) (calls 1 4).
Proof.
  unfold processPDF_round.
  apply (calls_bind _ _ 0 0 1 4); [apply calls_log|]. intros _.
  apply (calls_bind _ _ 1 1 0 3); [apply getEmbedding_calls|].
  intros r. destruct r as [embedding|err];
    [|eapply calls_weaken; [apply calls_log|lia..]].
  eapply calls_weaken;
    [apply (calls_bind _ _ 1 3 0 0); [apply addToChroma_calls|]|lia..].
  intros e. destruct e; apply calls_log.
Qed.

Lemma processPDF_loop_calls h filename n : forall chunks i,
  emits (processPDF_loop h filename n i chunks)
    (calls (length chunks) (4 * length chunks)).
Proof.
  induction chunks as [|chunk rest IH]; intros i; cbn [processPDF_loop].
  - apply calls_ret.
  - eapply calls_weaken;
      [apply (calls_bind _ _ 1 4 (length rest) (4 * length rest));
         [apply processPDF_round_calls|intros _; apply IH]|cbn; lia..].
Qed.

(** X10: [processPDF] on extracted text sends at least one and at most four
    HTTP requests for each chunk, and none when the text has no words. *)
Theorem processPDF_requests h path filename chunkSize chunkStride
    (s : State) content :
  (ReadPDF path s).1 = Ok content ->
  go_string content -> positive_int chunkSize -> positive_int chunkStride ->
  exists chunks evs,
    ChunkText content chunkSize chunkStride = Returned chunks
    /\ trace (processPDF h path filename chunkSize chunkStride s).2
       = trace s ++ evs
    /\ (length chunks <= length (http_requests evs) <= 4 * length chunks)%nat
    /\ (Fields content = [] -> http_requests evs = []).
Proof.
  intros Hr Hc Hsize Hstride.
  pose proof (ChunkText_windows content chunkSize chunkStride Hc Hsize Hstride)
    as Hchunks.
  destruct (processPDF_run h path filename chunkSize chunkStride s _ _
              Hr Hchunks) as (l1 & l2 & l3 & Hrun).
  cbv zeta in Hrun. rewrite Hrun. cbn [snd trace].
  set (chunks := map _ _) in *.
  destruct (processPDF_loop_calls h filename (len chunks) chunks 0
              {| world := world s;
                 trace := (trace s ++ [EvLog l1]) ++ [EvLog l2] |})
    as (evs & Htr & Hevs).
  exists chunks, ([EvLog l1; EvLog l2] ++ evs ++ [EvLog l3]).
  split; [done|]. rewrite Htr. cbn [trace]. split.
  { by rewrite <- !app_assoc. }
  unfold calls in Hevs.
  assert (Hreq : http_requests ([EvLog l1; EvLog l2] ++ evs ++ [EvLog l3])
                 = http_requests evs).
  { rewrite !http_requests_app. cbn. by rewrite app_nil_r. }
  rewrite Hreq. split; [done|]. intros Hempty.
  assert (Hnil : chunks = []).
  { subst chunks. unfold spans_of. by rewrite Hempty. }
  rewrite Hnil in Hevs. cbn in Hevs.
  destruct (http_requests evs); [done|cbn in Hevs; lia].
Qed.

End Requests.

Lemma processPDF_requests_witness :
  exists chunks evs,
    ChunkText "one two three" 1 1 = Returned chunks
    /\ trace (processPDF test_handler "/tmp/x.pdf" "x.pdf" 1 1
                (sim_state (fun k => Nat.eqb k 1)
                   (sim_start "/tmp/x.pdf" "one two three"))).2
       = trace (sim_state (fun k => Nat.eqb k 1)
                  (sim_start "/tmp/x.pdf" "one two three")) ++ evs
    /\ (length chunks <= length (http_requests evs) <= 4 * length chunks)%nat
    /\ (Fields "one two three" = [] -> http_requests evs = []).
Proof.
  apply (@processPDF_requests (SimEnv (fun k => Nat.eqb k 1)) test_handler
           "/tmp/x.pdf" "x.pdf" 1 1 _ "one two three");
    first [by vm_compute | solve_wf].
Defined.


(** ** Writing a record *)

Section Store.

Context `{E : Env}.

(** X11: [addToChroma] resolves the collection first.  When that fails it
    returns the error and neither draws an identifier nor sends a record;
    otherwise it sends one add request, a batch of the one record, to the
    resolved collection, and returns [nil] exactly when the answer has a
    status below 300. *)
Theorem addToChroma_result h text embedding filename chunkNum (s : State) :
  let c := getOrCreateCollection h (Collection (config h)) s in
  let out := addToChroma h text embedding filename chunkNum s in
  (forall err, c.1 = Err err ->
     out = (Some ("getOrCreateCollection failed: " +:+ err), c.2))
  /\ (forall colID, c.1 = Ok colID ->
      let u := uuid_New (world c.2) in
      let req := add_request h colID u.1 text embedding filename chunkNum in
      let resp := (http_Do req u.2).1 in
      trace out.2 = trace c.2 ++ [EvHttp req resp]
      /\ (out.1 = None <->
          exists code body, resp = Response code body /\ code < 300)
      /\ (forall err, resp = TransportError err ->
            out.1 = Some ("http post to " +:+ rURL req +:+ " failed: "
                          +:+ err))
      /\ (forall code body, resp = Response code body -> 300 <= code ->
            out.1 = Some ("chroma add returned status " +:+ itoa code
                          +:+ ": " +:+ body))).
Proof.
  cbv zeta. unfold addToChroma. rewrite bind_run.
  destruct (getOrCreateCollection h (Collection (config h)) s) as [c s1].
  cbn [fst snd]. destruct c as [colID|err].
  2:{ split; [by intros ? [= <-]|]. intros; simplify_eq. }
  split; [done|]. intros ? [= <-]. rewrite bind_run.
  unfold uuid_New_String. destruct (uuid_New (world s1)) as [id w1].
  cbn [fst snd]. rewrite bind_run. unfold http_Post.
  fold (chunk_metadata filename chunkNum).
  fold (add_request h colID id text embedding filename chunkNum).
  unfold http_call. cbn [world trace].
  destruct (http_Do (add_request h colID id text embedding filename chunkNum) w1)
    as [resp w2].
  cbn [fst]. destruct resp as [err|code body].
  - cbn. repeat split; intros; simplify_eq; try done.
    by destruct H as (? & ? & ? & ?).
  - destruct (Z.geb_spec code 300) as [Hge|Hlt]; cbn.
    + repeat split; intros; simplify_eq; try done.
      destruct H as (? & ? & ? & ?). simplify_eq. lia.
    + repeat split; intros; simplify_eq; try done; [by eexists _, _|lia].
Qed.

End Store.

Example addToChroma_sim :
  let out := addToChroma test_handler "one" [S754_zero false] "x.pdf" 1
               (sim_state (fun _ => false) (sim_start "/tmp/x.pdf" "one")) in
  out.1 = None
  /\ http_requests (trace out.2)
     = [get_request test_handler "documents";
        create_request test_handler "documents";
        add_request test_handler "col-0" "uuid-0" "one" [S754_zero false]
          "x.pdf" 1].
Proof. vm_compute. done. Qed.

(** ** What the handlers send *)

Section HandlerRequests.

Context `{E : Env}.

Lemma queryChroma_quiet h embedding :
  emits (queryChroma h embedding)
    (fun evs => no_prompt evs /\ no_write evs).
Proof.
  unfold queryChroma.
  eapply emits_bind;
    [apply emits_and;
       [apply getOrCreateCollection_no_prompt
       |apply getOrCreateCollection_no_write]| |].
  - intros r. instantiate (1 := fun evs => no_prompt evs /\ no_write evs).
    destruct r as [colID|err]; [|by apply emits_ret].
    unfold http_Post. eapply emits_bind; [apply emits_http| |].
    + intros resp. instantiate (1 := fun evs => evs = []).
      destruct resp as [err|code body]; [by apply emits_ret|].
      destruct (code >=? 300); [by apply emits_ret|].
      destruct (decode_ChromaQueryResponse body); by apply emits_ret.
    + intros e1 e2 [res ->] ->. by destruct res.
  - intros e1 e2 [? ?] [? ?]. split; [by apply no_prompt_app|].
    by apply no_write_app.
Qed.

(** X12: [HandleReset] sends nothing for a method other than POST and GET,
    and answers 405; a GET resets like a POST; and whatever the request, it
    sends at most one HTTP request, the DELETE of the collection. *)
Theorem HandleReset_requests (h : Handler) (r : Request) (s : State) :
  (Method r <> MethodPost -> Method r <> MethodGet ->
   HandleReset h r s
   = (http_Error "Method not allowed" StatusMethodNotAllowed, s))
  /\ (Method r = MethodGet ->
      HandleReset h r s
      = HandleReset h {| Method := MethodPost; query_q := query_q r |} s)
  /\ exists evs,
       trace (HandleReset h r s).2 = trace s ++ evs
       /\ (http_requests evs = [] \/ http_requests evs = [delete_request h]).
Proof.
  unfold HandleReset. split; [|split].
  - intros Hp Hg.
    destruct (String.eqb_spec (Method r) MethodPost); [done|].
    by destruct (String.eqb_spec (Method r) MethodGet).
  - intros ->. reflexivity.
  - destruct (_ && _).
    { exists []. cbn. rewrite app_nil_r. by split; [|left]. }
    rewrite bind_run. cbn [log_Printf].
    destruct (http_NewRequest_error _ _).
    { eexists [_]. cbn. by split; [|left]. }
    fold (delete_request h). rewrite bind_run. unfold http_call.
    cbn [world trace].
    destruct (http_Do (delete_request h) (world s)) as [resp w].
    destruct resp as [err|code body].
    { eexists [_; _]. cbn. rewrite <- app_assoc. by split; [|right]. }
    destruct (_ && _).
    { eexists [_; _]. cbn. rewrite <- app_assoc. by split; [|right]. }
    rewrite bind_run. cbn [log_Printf].
    eexists [_; _; _]. cbn. rewrite <- !app_assoc. by split; [|right].
Qed.

(** X13: [HandleSearch] sends nothing, and leaves the world as it is, for a
    method other than GET or an empty query.  Otherwise its first request is
    the embedding of the query; when that fails it sends nothing else, and
    when it succeeds at most three requests follow, none of them another
    embedding and none of them a record written. *)
Theorem HandleSearch_requests (h : Handler) (r : Request) (s : State) :
  (Method r <> MethodGet ->
   HandleSearch h r s
   = (http_Error "Method not allowed" StatusMethodNotAllowed, s))
  /\ (Method r = MethodGet -> query_q r = "" ->
      HandleSearch h r s
      = (http_Error "Missing query parameter 'q'" StatusBadRequest, s))
  /\ (Method r = MethodGet -> query_q r <> "" ->
      let line := EvLog ("Searching for: " +:+ query_q r) in
      let s0 := {| world := world s; trace := trace s ++ [line] |} in
      let req := embedding_request h (query_q r) in
      let resp := (http_Do req (world s)).1 in
      exists rest,
        trace (HandleSearch h r s).2
        = trace s ++ [line; EvHttp req resp] ++ rest
        /\ (is_Err (getEmbedding h (query_q r) s0).1 -> rest = [])
        /\ no_prompt rest /\ no_write rest
        /\ (length (http_requests rest) <= 3)%nat).
Proof.
  unfold HandleSearch. split; [|split].
  - intros Hm. by destruct (String.eqb_spec (Method r) MethodGet).
  - intros -> ->. reflexivity.
  - intros -> Hq. cbv zeta.
    change (negb (String.eqb MethodGet MethodGet)) with false. cbv iota.
    destruct (String.eqb_spec (query_q r) "") as [?|_]; [done|].
    rewrite bind_run. cbn [log_Printf]. rewrite bind_run.
    set (s0 := {| world := world s; trace := _ |}).
    pose proof (getEmbedding_state h (query_q r) s0) as Hst.
    destruct (getEmbedding h (query_q r) s0) as [e s1]. cbn [fst snd] in *.
    subst s1. subst s0. cbn [world trace].
    destruct e as [embedding|err].
    + rewrite bind_run.
      set (s1 := {| world := _; trace := _ |}).
      destruct (emits_and _ _ _ (queryChroma_quiet h embedding)
                  (queryChroma_calls h embedding) s1)
        as (rest & Htr & [Hp Hw] & Hc).
      destruct (queryChroma h embedding s1) as [q s2]. cbn [snd] in Htr.
      exists rest. split.
      { transitivity (trace s2); [by destruct q|].
        rewrite Htr. subst s1. cbn [trace]. by rewrite <- !app_assoc. }
      split; [by intros [? ?]|]. unfold calls in Hc. repeat split; [done..|lia].
    + exists []. cbn. rewrite <- !app_assoc. repeat split; try done. lia.
Qed.

End HandlerRequests.

(** A search for a collection that is not there creates it. *)
Example HandleSearch_sim_creates :
  let out := HandleSearch test_handler {| Method := "GET"; query_q := "cats" |}
               (sim_state (fun _ => false)
                  (sim_start "/tmp/x.pdf" "one two three")) in
  http_requests (trace out.2)
  = [embedding_request test_handler "cats";
     get_request test_handler "documents";
     create_request test_handler "documents";
     query_request test_handler "col-0" [S754_zero false]]
  /\ sim_collection (world out.2) = Some "col-0".
Proof. vm_compute. done. Qed.

(** * Uploads *)

(** ** The chunk parameters of the form *)






Lemma Atoi_in_range s n : Atoi s = Some n -> GoInt.in_range n.
Proof.
  unfold Atoi. destruct s as [|c rest]; [done|].
  destruct (if Ascii.eqb c "-" then _ else _) as [m|]; [|done].
  destruct (Z.leb_spec GoInt.MinInt m); [|done].
  destruct (Z.leb_spec m GoInt.MaxInt); [|done].
  intros [= <-]. by split.
Qed.

Lemma chunk_param_positive (defaultValue : Z) (formValue : string) :
  positive_int defaultValue ->
  positive_int (chunk_param defaultValue formValue).
Proof.
  intros Hd. unfold chunk_param. destruct (negb _); [|done].
  destruct (Atoi formValue) as [n|] eqn:Ha; [|done].
  apply Atoi_in_range in Ha. destruct (Z.gtb_spec n 0); [|done].
  unfold positive_int, GoInt.in_range in *. lia.
Qed.



Example chunk_param_examples :
  chunk_param 100 "250" = 250 /\ chunk_param 100 "+7" = 7
  /\ chunk_param 100 "0" = 100 /\ chunk_param 100 "-3" = 100
  /\ chunk_param 100 "12a" = 100 /\ chunk_param 100 " 12" = 100
  /\ chunk_param 100 "9223372036854775808" = 100.
Proof. vm_compute. done. Qed.

(** ** [HandleUpload] *)

Section Upload.

Context `{F : FileEnv}.

Lemma ReadPDF_world path (s s' : State) :
  world s = world s' -> (ReadPDF path s).1 = (ReadPDF path s').1.
Proof. intros Hw. unfold ReadPDF. cbn [fst]. by rewrite Hw. Qed.

Lemma call_world_run {A} (f : World -> A * World) (s : State) :
  call_world f s
  = ((f (world s)).1, {| world := (f (world s)).2; trace := trace s |}).
Proof. unfold call_world. by destruct (f (world s)). Qed.

Lemma deferred_run {A} (body : M (outcome A)) (calls : M unit) (s : State) :
  (body s).1 <> OutOfFuel ->
  deferred body calls s = ((body s).1, (calls (body s).2).2).
Proof.
  intros Hb. unfold deferred. rewrite bind_run.
  destruct (body s) as [out s1]. cbn [fst snd] in *.
  destruct out; [| |done]; rewrite bind_run; by destruct (calls s1).
Qed.

Lemma HandleUpload_file_run (h : Handler) (r : UploadRequest)
    (file : FormFile) (s : State) :
  let chunkSize := chunk_param 100 (uChunkSize r) in
  let chunkStride := chunk_param 80 (uChunkStride r) in
  let tmp := os_CreateTemp "" "upload-*.pdf" (world s) in
  let s1 := {| world := tmp.2;
               trace := trace s ++ [EvLog (received_line file);
                                    EvLog (processing_line chunkSize
                                             chunkStride)] |} in
  HandleUpload_file h r file s
  = match tmp.1 with
    | Err err =>
        (Returned (upload_Error ("failed to create temp file: " +:+ err)
                     StatusInternalServerError), s1)
    | Ok name =>
        deferred (HandleUpload_process h file chunkSize chunkStride name)
          (_ ← on_world (tmpFile_Close name); on_world (os_Remove name)) s1
    end.
Proof.
  cbv zeta. unfold HandleUpload_file. rewrite bind_run. cbn [log_Printf].
  rewrite bind_run. cbn [log_Printf world trace].
  rewrite bind_run, call_world_run. cbn [world trace fst snd].
  rewrite <- app_assoc. by destruct (os_CreateTemp _ _ _).1.
Qed.

Lemma HandleUpload_process_run (h : Handler) (file : FormFile)
    (chunkSize chunkStride : Z) (name : string) (s : State) :
  let copy := io_Copy_file name file (world s) in
  let s2 := {| world := copy.2; trace := trace s |} in
  HandleUpload_process h file chunkSize chunkStride name s
  = match copy.1 with
    | Some err =>
        (Returned (upload_Error ("failed to save file: " +:+ err)
                     StatusInternalServerError), s2)
    | None =>
        let p := processPDF h name (Filename file) chunkSize chunkStride s2 in
        match p.1 with
        | Panicked => (Panicked, p.2)
        | OutOfFuel => (OutOfFuel, p.2)
        | Returned (Some err) =>
            (Returned (upload_Error ("failed to process PDF: " +:+ err)
                         StatusInternalServerError), p.2)
        | Returned None =>
            (Returned (upload_completed (Filename file) chunkSize chunkStride),
             {| world := world p.2;
                trace := trace p.2
                         ++ [EvLog ("Successfully processed: "
                                    +:+ Filename file)] |})
        end
    end.
Proof.
  cbv zeta. unfold HandleUpload_process. rewrite bind_run, call_world_run.
  cbn [fst snd]. destruct (io_Copy_file name file (world s)).1; [done|].
  rewrite bind_run.
  destruct (processPDF _ _ _ _ _ _) as [[[?|]| |] ?]; try done.
Qed.

(** X15: an upload whose file is saved and read answers [completed], with
    the chunk size and stride it used, whatever the embedding provider and
    the store answer for the chunks: [HandleUpload] returns, having sent one
    embedding request for each chunk of the text, in order, and written no
    record but those of the chunks; and it has closed and removed the
    temporary file and then closed the form file. *)
Theorem HandleUpload_completed (h : Handler) (r : UploadRequest)
    (file : FormFile) (s : State) (name : string) (w1 w2 : World)
    (content : string) :
  uMethod r = MethodPost ->
  uParseMultipartForm r = None ->
  uFormFile r = Ok file ->
  os_CreateTemp "" "upload-*.pdf" (world s) = (Ok name, w1) ->
  io_Copy_file name file w1 = (None, w2) ->
  (ReadPDF name {| world := w2; trace := [] |}).1 = Ok content ->
  go_string content ->
  let chunkSize := chunk_param 100 (uChunkSize r) in
  let chunkStride := chunk_param 80 (uChunkStride r) in
  exists chunks evs w3,
    ChunkText content chunkSize chunkStride = Returned chunks
    /\ HandleUpload h r s
       = (Returned (upload_completed (Filename file) chunkSize chunkStride),
          {| world := formFile_Close file
                        (os_Remove name (tmpFile_Close name w3));
             trace := trace s ++ evs |})
    /\ embedding_prompts evs = chunks
    /\ written_records evs `sublist_of` all_records (Filename file) chunks.
Proof.
  intros Hm Hp Hf Htmp Hcopy Hread Hgo chunkSize chunkStride.
  assert (Hsize : positive_int chunkSize).
  { apply chunk_param_positive. solve_wf. }
  assert (Hstride : positive_int chunkStride).
  { apply chunk_param_positive. solve_wf. }
  pose proof (ChunkText_windows content chunkSize chunkStride Hgo Hsize
                Hstride) as Hchunks.
  set (chunks := map _ _) in Hchunks.
  set (s2 := {| world := w2;
                trace := trace s ++ [EvLog (received_line file);
                                     EvLog (processing_line chunkSize
                                              chunkStride)] |}).
  assert (Hread2 : (ReadPDF name s2).1 = Ok content).
  { by rewrite <- Hread; apply ReadPDF_world. }
  destruct (processPDF_run h name (Filename file) chunkSize chunkStride s2
              _ _ Hread2 Hchunks) as (l1 & l2 & l3 & Hrun).
  cbv zeta in Hrun.
  set (s3 := {| world := world s2; trace := _ |}) in Hrun.
  destruct (emits_and _ _ _
              (processPDF_loop_prompts h (Filename file) (len chunks) chunks 0)
              (processPDF_loop_writes h (Filename file) (len chunks) chunks
                 0 0) s3) as (evs & Htr & Hprompts & Hwrites).
  destruct (processPDF_loop h (Filename file) (len chunks) 0 chunks s3)
    as [[] s4] eqn:Hloop. cbn [snd] in *.
  assert (Hprocess :
    HandleUpload_process h file chunkSize chunkStride name
      {| world := w1; trace := trace s2 |}
    = (Returned (upload_completed (Filename file) chunkSize chunkStride),
       {| world := world s4;
          trace := (trace s4 ++ [EvLog l3])
                   ++ [EvLog ("Successfully processed: "
                              +:+ Filename file)] |})).
  { unfold HandleUpload_process. rewrite bind_run, call_world_run.
    cbn [world]. rewrite Hcopy. cbn [fst snd]. rewrite bind_run.
    change {| world := w2; trace := trace {| world := w1; trace := trace s2 |} |}
      with s2.
    rewrite Hrun. rewrite bind_run. reflexivity. }
  assert (Hfile :
    HandleUpload_file h r file s
    = (Returned (upload_completed (Filename file) chunkSize chunkStride),
       {| world := os_Remove name (tmpFile_Close name (world s4));
          trace := (trace s4 ++ [EvLog l3])
                   ++ [EvLog ("Successfully processed: "
                              +:+ Filename file)] |})).
  { unfold HandleUpload_file. rewrite bind_run. cbn [log_Printf].
    rewrite bind_run. cbn [log_Printf world trace].
    rewrite bind_run, call_world_run. cbn [world trace].
    rewrite Htmp. cbn [fst snd].
    fold chunkSize chunkStride.
    replace ((trace s ++ _) ++ _) with (trace s2)
      by (subst s2; cbn [trace]; by rewrite <- app_assoc).
    rewrite deferred_run; rewrite Hprocess; [|done]. cbn [fst snd].
    by rewrite bind_run. }
  exists chunks,
    ([EvLog (received_line file); EvLog (processing_line chunkSize chunkStride);
      EvLog l1; EvLog l2] ++ evs
     ++ [EvLog l3; EvLog ("Successfully processed: " +:+ Filename file)]),
    (world s4).
  split; [done|]. split; [|split].
  - unfold HandleUpload. rewrite Hm, Hp, Hf.
    change (negb (String.eqb MethodPost MethodPost)) with false. cbv iota.
    rewrite deferred_run; rewrite Hfile; [|done]. cbn [fst snd].
    unfold on_world. cbn [snd world trace]. f_equal. f_equal.
    rewrite Htr. subst s3 s2. cbn [trace]. by rewrite <- !app_assoc.
  - rewrite !embedding_prompts_app, Hprompts. cbn. by rewrite app_nil_r.
  - rewrite !written_records_app. cbn. by rewrite app_nil_r.
Qed.

(** X16: an upload that fails.  A method other than POST, a form that does
    not parse and a form without the file are answered 405, 400 and 400 and
    nothing is touched.  When no temporary file can be made the answer is
    500 and the form file is closed; when the copy fails, or the saved file
    cannot be read as a PDF, the answer is 500, the temporary file is closed
    and removed and the form file is closed.  None of them sends an HTTP
    request. *)
Theorem HandleUpload_failures (h : Handler) (r : UploadRequest) (s : State) :
  (uMethod r <> MethodPost ->
   HandleUpload h r s
   = (Returned (upload_Error "Method not allowed" StatusMethodNotAllowed), s))
  /\ (uMethod r = MethodPost ->
      forall err, uParseMultipartForm r = Some err ->
      HandleUpload h r s
      = (Returned (upload_Error ("failed to parse form: " +:+ err)
                     StatusBadRequest), s))
  /\ (uMethod r = MethodPost -> uParseMultipartForm r = None ->
      (forall err, uFormFile r = Err err ->
       HandleUpload h r s
       = (Returned (upload_Error ("failed to get file: " +:+ err)
                      StatusBadRequest), s))
      /\ forall file, uFormFile r = Ok file ->
         let lines := [EvLog (received_line file);
                       EvLog (processing_line
                                (chunk_param 100 (uChunkSize r))
                                (chunk_param 80 (uChunkStride r)))] in
         let tmp := os_CreateTemp "" "upload-*.pdf" (world s) in
         (forall err, tmp.1 = Err err ->
          HandleUpload h r s
          = (Returned (upload_Error ("failed to create temp file: " +:+ err)
                         StatusInternalServerError),
             {| world := formFile_Close file tmp.2;
                trace := trace s ++ lines |}))
         /\ forall name, tmp.1 = Ok name ->
            let copy := io_Copy_file name file tmp.2 in
            let cleaned :=
              {| world := formFile_Close file
                            (os_Remove name (tmpFile_Close name copy.2));
                 trace := trace s ++ lines |} in
            (forall err, copy.1 = Some err ->
             HandleUpload h r s
             = (Returned (upload_Error ("failed to save file: " +:+ err)
                            StatusInternalServerError), cleaned))
            /\ (forall err, copy.1 = None ->
                (ReadPDF name {| world := copy.2; trace := [] |}).1 = Err err ->
                HandleUpload h r s
                = (Returned (upload_Error
                               ("failed to process PDF: failed to read PDF: "
                                +:+ err)
                               StatusInternalServerError), cleaned))).
Proof.
  unfold HandleUpload. split; [|split].
  - intros Hm. by destruct (String.eqb_spec (uMethod r) MethodPost).
  - intros -> err ->. reflexivity.
  - intros -> ->.
    change (negb (String.eqb MethodPost MethodPost)) with false. cbv iota.
    split; [by intros err ->|]. intros file ->. cbv zeta.
    pose proof (HandleUpload_file_run h r file s) as Hfile. cbv zeta in Hfile.
    split.
    + intros err Htmp. rewrite Htmp in Hfile.
      rewrite deferred_run; rewrite Hfile; done.
    + intros name Htmp. rewrite Htmp in Hfile.
      set (s1 := {| world := _; trace := _ |}) in Hfile.
      pose proof (HandleUpload_process_run h file
                    (chunk_param 100 (uChunkSize r))
                    (chunk_param 80 (uChunkStride r)) name s1) as Hprocess.
      cbv zeta in Hprocess. change (world s1) with
        (os_CreateTemp "" "upload-*.pdf" (world s)).2 in Hprocess.
      split.
      * intros err Hcopy. rewrite Hcopy in Hprocess.
        rewrite deferred_run; rewrite Hfile.
        all: rewrite deferred_run; rewrite Hprocess; done.
      * intros err Hcopy Hread. rewrite Hcopy in Hprocess.
        set (s2 := {| world := _; trace := trace s1 |}) in Hprocess.
        assert (Hread2 : (ReadPDF name s2).1 = Err err).
        { by rewrite <- Hread; apply ReadPDF_world. }
        rewrite (processPDF_extraction_failure h name (Filename file)
                   _ _ s2 err Hread2) in Hprocess.
        cbn [fst snd] in Hprocess.
        rewrite deferred_run; rewrite Hfile.
        all: rewrite deferred_run; rewrite Hprocess; done.
Qed.

End Upload.

Lemma HandleUpload_completed_witness :
  exists chunks evs w3,
    ChunkText "one two three" (chunk_param 100 "2") (chunk_param 80 "1")
    = Returned chunks
    /\ @HandleUpload (SimEnv (fun k => Nat.eqb k 1))
         (SimFileEnv (fun k => Nat.eqb k 1)) test_handler
         {| uMethod := "POST"; uParseMultipartForm := None;
            uFormFile := Ok {| Filename := "x.pdf"; Size := 13;
                               fileBytes := "one two three" |};
            uChunkSize := "2"; uChunkStride := "1" |}
         (sim_state (fun k => Nat.eqb k 1) (sim_start "/tmp/y.pdf" "y"))
       = (Returned (upload_completed "x.pdf" (chunk_param 100 "2")
                      (chunk_param 80 "1")),
          {| world := formFile_Close
                        {| Filename := "x.pdf"; Size := 13;
                           fileBytes := "one two three" |}
                        (os_Remove "/tmp/upload-1.pdf"
                           (tmpFile_Close "/tmp/upload-1.pdf" w3));
             trace := trace (sim_state (fun k => Nat.eqb k 1)
                               (sim_start "/tmp/y.pdf" "y")) ++ evs |})
    /\ embedding_prompts evs = chunks
    /\ written_records evs `sublist_of` all_records "x.pdf" chunks.
Proof.
  eapply (@HandleUpload_completed (SimEnv (fun k => Nat.eqb k 1))
            (SimFileEnv (fun k => Nat.eqb k 1)) test_handler
            {| uMethod := "POST"; uParseMultipartForm := None;
               uFormFile := Ok {| Filename := "x.pdf"; Size := 13;
                                  fileBytes := "one two three" |};
               uChunkSize := "2"; uChunkStride := "1" |}
            {| Filename := "x.pdf"; Size := 13;
               fileBytes := "one two three" |}
            (sim_state (fun k => Nat.eqb k 1) (sim_start "/tmp/y.pdf" "y"))
            "/tmp/upload-1.pdf" _ _ "one two three");
    first [reflexivity | by vm_compute | solve_wf].
Defined.

(** An upload against the simulated upstream whose second embedding call
    fails: the answer is [completed], two of the three chunks are stored,
    and the temporary file is gone. *)
Example HandleUpload_sim_run :
  let out := @HandleUpload (SimEnv (fun k => Nat.eqb k 1))
               (SimFileEnv (fun k => Nat.eqb k 1)) test_handler
               {| uMethod := "POST"; uParseMultipartForm := None;
                  uFormFile := Ok {| Filename := "x.pdf"; Size := 13;
                                     fileBytes := "one two three" |};
                  uChunkSize := "1"; uChunkStride := "1" |}
               (sim_state (fun k => Nat.eqb k 1) (sim_start "/tmp/y.pdf" "y")) in
  out.1 = Returned (upload_completed "x.pdf" 1 1)
  /\ sim_stored (world out.2)
     = [(["one"], [chunk_metadata "x.pdf" 1]);
        (["three"], [chunk_metadata "x.pdf" 3])]
  /\ sim_files (world out.2) = {[ "/tmp/y.pdf" := "y" ]}.
Proof. vm_compute. done. Qed.

(** * The middleware *)

Lemma CutPrefix_Some (prefix : string) : forall s rest,
  Auth.CutPrefix s prefix = Some rest <-> s = prefix +:+ rest.
Proof.
  induction prefix as [|p prefix IH]; intros s rest.
  - rewrite append_nil. destruct s; cbn [Auth.CutPrefix];
      (split; [by intros [= ->]|by intros ->]).
  - rewrite append_cons. destruct s as [|c s]; cbn [Auth.CutPrefix]; [done|].
    destruct (Ascii.eqb_spec c p) as [->|Hc].
    + rewrite IH. split; [by intros ->|by intros [= ->]].
    + split; [done|]. by intros [= -> _].
Qed.

Lemma length_append (s t : string) :
  String.length (s +:+ t) = (String.length s + String.length t)%nat.
Proof.
  induction s as [|c s IH]; [by rewrite append_nil|].
  rewrite append_cons. cbn [String.length]. by rewrite IH.
Qed.

Lemma append_longer (prefix rest : string) :
  prefix <> "" -> prefix +:+ rest <> rest.
Proof.
  intros Hp Heq. apply (f_equal String.length) in Heq.
  rewrite length_append in Heq. destruct prefix; [done|].
  cbn [String.length] in Heq. lia.
Qed.

Section Guard.

Context `{J : Auth.JwtEnv} {A : Type}.

(** X17: the middleware runs the handler it wraps exactly when the
    [Authorization] header is [Bearer] and a space followed by a token that
    parses with the secret and is valid; the handler then runs on the state
    as it was.  Otherwise it answers 401 itself and changes nothing: for a
    header that is empty, for one that does not start with the prefix, and
    for a token that does not parse or is not valid. *)
Theorem Middleware_guard (h : Auth.Handler) (next : M A)
    (authHeader : string) (s : State) :
  let secret := Auth.JWTSecret (Auth.config h) in
  let out := Auth.Middleware h next authHeader s in
  (forall tok, authHeader = "Bearer " +:+ tok ->
     (Auth.jwt_ParseWithClaims tok secret (world s) = Ok true ->
      out = (inr (next s).1, (next s).2))
     /\ (Auth.jwt_ParseWithClaims tok secret (world s) <> Ok true ->
         out = (inl (http_Error "Invalid token" StatusUnauthorized), s)))
  /\ (authHeader = "" ->
      out = (inl (http_Error "Authorization header required"
                    StatusUnauthorized), s))
  /\ (authHeader <> "" -> (forall tok, authHeader <> "Bearer " +:+ tok) ->
      out = (inl (http_Error "Bearer token required" StatusUnauthorized), s)).
Proof.
  cbv zeta. unfold Auth.Middleware, Auth.TrimPrefix. split; [|split].
  - intros tok ->.
    assert (Hcut : Auth.CutPrefix ("Bearer " +:+ tok) "Bearer " = Some tok)
      by by apply CutPrefix_Some.
    rewrite Hcut.
    destruct (String.eqb_spec ("Bearer " +:+ tok) "") as [He|_].
    { by rewrite append_cons in He. }
    destruct (String.eqb_spec tok ("Bearer " +:+ tok)) as [He|_].
    { symmetry in He. by apply append_longer in He. }
    rewrite bind_run. unfold call_world. cbn [world trace].
    destruct s as [w tr]. cbn [world trace].
    destruct (Auth.jwt_ParseWithClaims tok _ w) as [[|]|err].
    + split; [|done]. intros _. rewrite bind_run. by destruct (next _).
    + split; [done|]. by intros _.
    + split; [done|]. by intros _.
  - intros ->. reflexivity.
  - intros Hne Hno.
    destruct (String.eqb_spec authHeader "") as [?|_]; [done|].
    destruct (Auth.CutPrefix authHeader "Bearer ") as [tok|] eqn:Hcut.
    { apply CutPrefix_Some in Hcut. by apply Hno in Hcut. }
    by rewrite String.eqb_refl.
Qed.

End Guard.

Example Middleware_sim :
  let h := {| Auth.config := {| Auth.AdminUser := "admin";
                                Auth.AdminPass := "secret";
                                Auth.JWTSecret := "key" |} |} in
  let s := sim_state (fun _ => false) (sim_start "/tmp/x.pdf" "one") in
  let reset := HandleReset test_handler {| Method := "POST"; query_q := "" |} in
  Auth.Middleware h reset "Bearer key" s = (inr (reset s).1, (reset s).2)
  /\ Auth.Middleware h reset "Bearer " s
     = (inl (http_Error "Invalid token" 401), s)
  /\ Auth.Middleware h reset "bearer key" s
     = (inl (http_Error "Bearer token required" 401), s)
  /\ Auth.Middleware h reset "Bearer" s
     = (inl (http_Error "Bearer token required" 401), s).
Proof. vm_compute. done. Qed.
